(** * Whisper ASR server: a shallow embedding of [docker/whisper-asr/server.py]

    The development models the request handlers of the speech-to-text
    service: the cached model handle ([get_model]), the two engine
    branches of [transcribe] and [detect_language], and the temporary
    audio file that every request creates and removes.

    The inference libraries (torch, whisper, faster_whisper), the
    temporary-file name supply and [os.path.splitext] are external to the
    repository; they are collected in the record [Libs] and every theorem
    quantifies over them.

    Modelling choices:
    - the state is the global [model], the file system, and a log of the
      load operations the libraries have executed; [logger] calls change
      none of them and are left out;
    - what a library raises is an instance of [Exception], so that the
      [except Exception] clauses catch it;
    - a probability is the rational value of the float (no NaN);
    - creating the temporary file, reading the upload and writing it
      happen before the [try] block; a request is served with at most one
      of these steps raising ([SaveFailure]), and [transcribe],
      [detect_language] and [app] are the handlers on a request whose
      upload is saved without error. *)

From Stdlib Require Import QArith.
From stdpp Require Import base strings gmap list.

Local Open Scope string_scope.

(** ** Python strings

    A [str] is modelled as a [string] whose characters are read as code
    points below 256. *)

Module Str.

(** [str.isspace] on one character: TAB, LF, VT, FF, CR, the separators
    FS, GS, RS, US, the space, NEL (0x85) and NBSP (0xA0). *)
Definition isspace (c : Ascii.ascii) : bool :=
  let n := Ascii.nat_of_ascii c in
  (((9 <=? n) && (n <=? 13)) || ((28 <=? n) && (n <=? 32))
   || (n =? 133) || (n =? 160))%nat.

(** [s.lstrip()] *)
Fixpoint lstrip (s : string) : string :=
  match s with
  | EmptyString => EmptyString
  | String c r => if isspace c then lstrip r else s
  end.

Definition is_empty (s : string) : bool :=
  match s with EmptyString => true | String _ _ => false end.

(** [s.rstrip()] *)
Fixpoint rstrip (s : string) : string :=
  match s with
  | EmptyString => EmptyString
  | String c r =>
      let r' := rstrip r in
      if isspace c && is_empty r' then EmptyString else String c r'
  end.

(** [s.strip()] *)
Definition strip (s : string) : string := rstrip (lstrip s).

(** [sep.join(l)] *)
Fixpoint join (sep : string) (l : list string) : string :=
  match l with
  | [] => EmptyString
  | [x] => x
  | x :: rest => x +:+ sep +:+ join sep rest
  end.

(** Whitespace only. *)
Fixpoint all_space (s : string) : bool :=
  match s with
  | EmptyString => true
  | String c r => isspace c && all_space r
  end.

(** Whitespace at the left end, at the right end. *)
Definition starts_with_space (s : string) : bool :=
  match s with EmptyString => false | String c _ => isspace c end.

Fixpoint ends_with_space (s : string) : bool :=
  match s with
  | EmptyString => false
  | String c EmptyString => isspace c
  | String _ r => ends_with_space r
  end.

End Str.

(** ** Python values that cross the engine boundary *)

Inductive pyval :=
| PyNone
| PyStr (s : string)
| PyInt (z : Z).

(** [Optional[str]] form parameter as a Python value. *)
Definition of_optional (o : option string) : pyval :=
  match o with None => PyNone | Some s => PyStr s end.

(** An instance of [Exception]: its class name and [str(e)]. *)
Record Exception := mkExc { exc_class : string; exc_msg : string }.

Definition str (e : Exception) : string := exc_msg e.

Definition KeyError (key : string) : Exception :=
  mkExc "KeyError" ("'" +:+ key +:+ "'").
Definition AttributeError (msg : string) : Exception :=
  mkExc "AttributeError" msg.
Definition ValueError (msg : string) : Exception := mkExc "ValueError" msg.
Definition FileNotFoundError (path : string) : Exception :=
  mkExc "FileNotFoundError"
        ("[Errno 2] No such file or directory: '" +:+ path +:+ "'").

(** What leaves a handler when it raises: the [HTTPException] built by the
    handler, or an exception that no [except] clause rewrote. *)
Inductive Raised :=
| HTTPException (status_code : Z) (detail : string)
| Propagated (e : Exception).

(** What a handler returns: the [JSONResponse] of the [txt] branch, the
    dictionary of [transcribe], or the dictionary of [detect_language]. *)
Inductive Response :=
| JSONResponse (content : pyval) (media_type : string)
| TranscriptionDict (text : string) (language : pyval) (task : string)
| DetectionDict (detected_language : string) (language_probability : Q).

(** ** Engine data *)

(** The loaded model object: its identity and the device it lives on. *)
Record Handle := mkHandle { handle_id : nat; device : string }.

(** The two constructor calls of [get_model], with their arguments. *)
Inductive LoadCall :=
| WhisperModel (model_size device compute_type download_root : string)
| whisper_load_model (name device download_root : string).

(** faster_whisper: one segment record, the metadata record, and the lazy
    segment sequence.  The sequence is produced on demand: every [next]
    yields a segment, stops, or raises. *)
Record Segment := mkSegment { seg_text : string }.

Record TranscriptionInfo :=
  mkInfo { info_language : string; info_language_probability : Q }.

Inductive Generator :=
| Stop
| Yield (s : Segment) (rest : Generator)
| Fail (e : Exception).

Fixpoint generator_of (l : list Segment) : Generator :=
  match l with
  | [] => Stop
  | s :: rest => Yield s (generator_of rest)
  end.

(** The file system: existing paths and their contents. *)
Abbreviation FS := (gmap string (list Byte.byte)).

(** An uploaded file ([UploadFile]): its name and the bytes [read] returns. *)
Record UploadFile :=
  mkUpload { filename : string; upload_content : list Byte.byte }.

(** The step of the [with] block that raises while an upload is saved:
    creating the temporary file ([NamedTemporaryFile], [os.path.splitext]),
    reading the upload ([await audio_file.read()]), or writing it
    ([tmp.write], with the bytes that reached the file). *)
Inductive SaveFailure :=
| CreateRaises (e : Exception)
| ReadRaises (e : Exception)
| WriteRaises (e : Exception) (written : list Byte.byte).

Definition failure_exception (failure : SaveFailure) : Exception :=
  match failure with
  | CreateRaises e | ReadRaises e | WriteRaises e _ => e
  end.

(** ** External collaborators

    [load] receives the constructor call and the number of loads executed
    before it, so that successive loads may differ.  Every library call
    may raise; those that take a path may change the file system. *)
Record Libs := mkLibs {
  Audio : Type;
  Mel : Type;
  cuda_is_available : bool;
  cuda_get_device_name : Exception + string;
  load : LoadCall → nat → FS → (Exception + Handle) * FS;
  fw_transcribe :
    Handle → string → list (string * pyval) → FS →
    (Exception + (Generator * TranscriptionInfo)) * FS;
  ow_transcribe :
    Handle → string → list (string * pyval) → FS →
    (Exception + gmap string pyval) * FS;
  load_audio : string → FS → (Exception + Audio) * FS;
  pad_or_trim : Audio → Exception + Audio;
  log_mel_spectrogram : Audio → Exception + Mel;
  mel_to : Mel → string → Exception + Mel;
  ow_detect_language : Handle → Mel → Exception + (pyval * list (string * Q));
  NamedTemporaryFile : FS → string → string;
  splitext : string → string * string
}.

(** ** Process state *)

(** The global [model], the log of load operations executed so far, and
    the file system. *)
Record World := mkWorld {
  model : option Handle;
  load_log : list LoadCall;
  fs : FS
}.

Definition initial_world (files : FS) : World :=
  {| model := None; load_log := []; fs := files |}.

(** Environment configuration, read once at import. *)
Record Config := mkConfig {
  ASR_MODEL : string;
  ASR_ENGINE : string;
  ASR_MODEL_PATH : string
}.

(** [os.getenv(name, default)] *)
Definition getenv (env : gmap string string) (name default : string) : string :=
  match env !! name with Some v => v | None => default end.

Definition config_of_env (env : gmap string string) : Config :=
  {| ASR_MODEL := getenv env "ASR_MODEL" "base";
     ASR_ENGINE := getenv env "ASR_ENGINE" "openai_whisper";
     ASR_MODEL_PATH := getenv env "ASR_MODEL_PATH" "/data/whisper" |}.

(** ** State and exception monad *)

Definition St (E A : Type) : Type := World → (E + A) * World.

Definition ret {E A} (a : A) : St E A := fun w => (inr a, w).
Definition raise {E A} (e : E) : St E A := fun w => (inl e, w).
Definition bind {E A B} (m : St E A) (k : A → St E B) : St E B :=
  fun w =>
    match m w with
    | (inl e, w') => (inl e, w')
    | (inr a, w') => k a w'
    end.

Notation "'let*' x ':=' m 'in' k" := (bind m (fun x => k))
  (at level 10, x pattern, m at level 200, k at level 200).

(** A pure library call that may raise. *)
Definition call {A} (r : Exception + A) : St Exception A := fun w => (r, w).

(** A library call that may raise and may change the file system. *)
Definition call_fs {A} (f : FS → (Exception + A) * FS) : St Exception A :=
  fun w =>
    let '(r, fs') := f (fs w) in
    (r, {| model := model w; load_log := load_log w; fs := fs' |}).

(** [try: body except Exception as e: handler e] *)
Definition try_except {E A} (body : St Exception A) (handler : Exception → St E A)
  : St E A :=
  fun w =>
    match body w with
    | (inl e, w') => handler e w'
    | (inr a, w') => (inr a, w')
    end.

(** [try: body finally: fin].  [fin] runs on every exit of [body]; when it
    raises, its exception replaces the outcome of [body]. *)
Definition try_finally {A} (body : St Raised A) (fin : St Exception unit)
  : St Raised A :=
  fun w =>
    match body w with
    | (r, w') =>
        match fin w' with
        | (inl e, w'') => (inl (Propagated e), w'')
        | (inr _, w'') => (r, w'')
        end
    end.

(** ** The file-system calls of the handlers *)

(** [os.path.exists(path)] *)
Definition os_path_exists (path : string) (files : FS) : bool :=
  bool_decide (is_Some (files !! path)).

(** [os.unlink(path)]: raises when the file does not exist. *)
Definition os_unlink (path : string) : St Exception unit :=
  fun w =>
    match fs w !! path with
    | None => (inl (FileNotFoundError path), w)
    | Some _ =>
        (inr tt,
         {| model := model w; load_log := load_log w; fs := delete path (fs w) |})
    end.

(** The [finally] block of both handlers. *)
Definition cleanup (tmp_path : string) : St Exception unit :=
  fun w =>
    if os_path_exists tmp_path (fs w) then os_unlink tmp_path w
    else (inr tt, w).

(** The world with one file removed. *)
Definition without (path : string) (w : World) : World :=
  {| model := model w; load_log := load_log w; fs := delete path (fs w) |}.

(** How the outcome of a [try] body leaves a handler whose [except]
    clause raises [HTTPException(status_code=500, detail=str(e))]. *)
Definition surfaced {A} (r : Exception + A) : Raised + A :=
  match r with
  | inl e => inl (HTTPException 500 (str e))
  | inr a => inr a
  end.

Section Server.

Variable L : Libs.
Variable cfg : Config.

(** ** [get_model] *)

Definition load_call : LoadCall :=
  let device := if cuda_is_available L then "cuda" else "cpu" in
  if String.eqb (ASR_ENGINE cfg) "faster_whisper" then
    let compute_type :=
      if String.eqb device "cuda" then "float16" else "int8" in
    WhisperModel (ASR_MODEL cfg) device compute_type (ASR_MODEL_PATH cfg)
  else
    whisper_load_model (ASR_MODEL cfg) device (ASR_MODEL_PATH cfg).

Definition get_model : St Exception Handle :=
  fun w =>
    match model w with
    | None =>
        let '(r, fs') := load L load_call (length (load_log w)) (fs w) in
        let log' := (load_log w ++ [load_call])%list in
        match r with
        | inl e => (inl e, {| model := None; load_log := log'; fs := fs' |})
        | inr h => (inr h, {| model := Some h; load_log := log'; fs := fs' |})
        end
    | Some h => (inr h, w)
    end.

(** ** Dictionary and attribute operations used by the handlers *)

(** [d[key]] on a result dictionary. *)
Definition getitem (d : gmap string pyval) (key : string) : Exception + pyval :=
  match d !! key with
  | Some v => inr v
  | None => inl (KeyError key)
  end.

(** [d.get(key, default)] *)
Definition dict_get (d : gmap string pyval) (key : string) (default : pyval)
  : pyval :=
  match d !! key with
  | Some v => v
  | None => default
  end.

(** [text.strip()]: only a [str] has the attribute. *)
Definition py_strip (text : pyval) : Exception + string :=
  match text with
  | PyStr s => inr (Str.strip s)
  | PyNone =>
      inl (AttributeError "'NoneType' object has no attribute 'strip'")
  | PyInt _ => inl (AttributeError "'int' object has no attribute 'strip'")
  end.

(** [[segment.text for segment in segments]]: drains the generator. *)
Fixpoint segment_texts (segments : Generator) : Exception + list string :=
  match segments with
  | Stop => inr []
  | Yield s rest =>
      match segment_texts rest with
      | inl e => inl e
      | inr l => inr (seg_text s :: l)
      end
  | Fail e => inl e
  end.

(** ** [transcribe] *)

(** The [with tempfile.NamedTemporaryFile(delete=False, suffix=...)]
    block when none of its steps raises: the file is created under a name
    chosen by the library, the upload is written to it, and the file
    stays after the block. *)
Definition save_upload {E} (audio_file : UploadFile) : St E string :=
  fun w =>
    let tmp_path :=
      NamedTemporaryFile L (fs w) (snd (splitext L (filename audio_file))) in
    (inr tmp_path,
     {| model := model w; load_log := load_log w;
        fs := <[tmp_path := upload_content audio_file]> (fs w) |}).

(** The [with] block in general.  It runs before the [try]: what one of
    its steps raises leaves the handler as it is, and with [delete=False]
    a file that has been created stays, empty when the read raises and
    with what has been written when the write raises. *)
Definition save_upload_with
  (failure : option SaveFailure) (audio_file : UploadFile) : St Raised string :=
  fun w =>
    let tmp_path :=
      NamedTemporaryFile L (fs w) (snd (splitext L (filename audio_file))) in
    let created content :=
      {| model := model w; load_log := load_log w;
         fs := <[tmp_path := content]> (fs w) |} in
    match failure with
    | None => save_upload audio_file w
    | Some (CreateRaises e) => (inl (Propagated e), w)
    | Some (ReadRaises e) => (inl (Propagated e), created [])
    | Some (WriteRaises e written) => (inl (Propagated e), created written)
    end.

(** Keyword arguments of the two [transcribe] calls. *)
Definition fw_kwargs (task : string) (language : option string)
  : list (string * pyval) :=
  [("task", PyStr task); ("language", of_optional language);
   ("beam_size", PyInt 5)].

Definition ow_kwargs (task : string) (language : option string)
  : list (string * pyval) :=
  [("task", PyStr task); ("language", of_optional language)].

(** The engine branch: [text] and [detected_language]. *)
Definition transcribe_text (tmp_path task : string) (language : option string)
  : St Exception (pyval * pyval) :=
  let* whisper_model := get_model in
  if String.eqb (ASR_ENGINE cfg) "faster_whisper" then
    let* (segments, info) :=
      call_fs (fw_transcribe L whisper_model tmp_path
                 (fw_kwargs task language)) in
    let* texts := call (segment_texts segments) in
    let text := Str.join " " texts in
    let detected_language := info_language info in
    ret (PyStr text, PyStr detected_language)
  else
    let* result :=
      call_fs (ow_transcribe L whisper_model tmp_path
                 (ow_kwargs task language)) in
    let* text := call (getitem result "text") in
    let detected_language :=
      dict_get result "language" (of_optional language) in
    ret (text, detected_language).

(** The two [return] statements. *)
Definition respond (output task : string) (text detected_language : pyval)
  : St Exception Response :=
  if String.eqb output "txt" then
    ret (JSONResponse text "text/plain")
  else
    let* stripped := call (py_strip text) in
    ret (TranscriptionDict stripped detected_language task).

Definition transcribe_body
  (tmp_path task : string) (language : option string) (output : string)
  : St Exception Response :=
  let* (text, detected_language) := transcribe_text tmp_path task language in
  respond output task text detected_language.

Definition transcribe_with
  (failure : option SaveFailure)
  (audio_file : option UploadFile) (task : string)
  (language : option string) (output : string) : St Raised Response :=
  match audio_file with
  | None => raise (HTTPException 400 "No audio file provided")
  | Some f =>
      let* tmp_path := save_upload_with failure f in
      try_finally
        (try_except
           (transcribe_body tmp_path task language output)
           (fun e => raise (HTTPException 500 (str e))))
        (cleanup tmp_path)
  end.

(** The handler on a request whose upload is saved without error. *)
Definition transcribe
  (audio_file : option UploadFile) (task : string)
  (language : option string) (output : string) : St Raised Response :=
  transcribe_with None audio_file task language output.

(** ** [detect_language] *)

(** [probs.get]: the distribution is a dictionary in insertion order. *)
Fixpoint probs_get (probs : list (string * Q)) (key : string) : option Q :=
  match probs with
  | [] => None
  | (k, p) :: rest => if String.eqb k key then Some p else probs_get rest key
  end.

(** [a > b] on the values [probs.get] returns; [None] is not ordered. *)
Definition py_gt (a b : option Q) : Exception + bool :=
  match a, b with
  | Some x, Some y => inr (negb (Qle_bool x y))
  | _, _ =>
      inl (mkExc "TypeError"
             "'>' not supported between instances of 'NoneType' and 'float'")
  end.

(** The loop of [max(iterable, key=key)] after its first item. *)
Fixpoint max_loop (key : string → option Q) (maxitem : string)
  (rest : list string) : Exception + string :=
  match rest with
  | [] => inr maxitem
  | item :: rest' =>
      match py_gt (key item) (key maxitem) with
      | inl e => inl e
      | inr true => max_loop key item rest'
      | inr false => max_loop key maxitem rest'
      end
  end.

(** [max(probs, key=probs.get)] *)
Definition py_max (keys : list string) (key : string → option Q)
  : Exception + string :=
  match keys with
  | [] => inl (ValueError "max() arg is an empty sequence")
  | first :: rest => max_loop key first rest
  end.

(** [probs[detected_lang]] *)
Definition probs_getitem (probs : list (string * Q)) (key : string)
  : Exception + Q :=
  match probs_get probs key with
  | Some p => inr p
  | None => inl (KeyError key)
  end.

Definition detect_body (tmp_path : string) : St Exception Response :=
  let* whisper_model := get_model in
  if String.eqb (ASR_ENGINE cfg) "faster_whisper" then
    let* (_, info) := call_fs (fw_transcribe L whisper_model tmp_path []) in
    ret (DetectionDict (info_language info) (info_language_probability info))
  else
    let* audio := call_fs (load_audio L tmp_path) in
    let* audio := call (pad_or_trim L audio) in
    let* mel := call (log_mel_spectrogram L audio) in
    let* mel := call (mel_to L mel (device whisper_model)) in
    let* (_, probs) := call (ow_detect_language L whisper_model mel) in
    let* detected_lang := call (py_max (fst <$> probs) (probs_get probs)) in
    let* p := call (probs_getitem probs detected_lang) in
    ret (DetectionDict detected_lang p).

Definition detect_language_with
  (failure : option SaveFailure) (audio_file : UploadFile)
  : St Raised Response :=
  let* tmp_path := save_upload_with failure audio_file in
  try_finally
    (try_except
       (detect_body tmp_path)
       (fun e => raise (HTTPException 500 (str e))))
    (cleanup tmp_path).

(** The handler on a request whose upload is saved without error. *)
Definition detect_language (audio_file : UploadFile) : St Raised Response :=
  detect_language_with None audio_file.

(** Startup: the device name is asked for when CUDA is available, then
    the model is preloaded. *)
Definition startup_event : St Exception unit :=
  let* _ :=
    if cuda_is_available L then
      let* _ := call (cuda_get_device_name L) in ret tt
    else ret tt in
  let* _ := get_model in
  ret tt.

(** ** Routing *)

Inductive Request :=
| PostAsr (audio_file : option UploadFile) (task : string)
          (language : option string) (output : string)
| PostDetectLanguage (audio_file : UploadFile).

Definition app (req : Request) : St Raised Response :=
  match req with
  | PostAsr audio_file task language output =>
      transcribe audio_file task language output
  | PostDetectLanguage audio_file => detect_language audio_file
  end.

(** A request served while the given step of saving its upload raises,
    if any. *)
Definition serve (failure : option SaveFailure) (req : Request)
  : St Raised Response :=
  match req with
  | PostAsr audio_file task language output =>
      transcribe_with failure audio_file task language output
  | PostDetectLanguage audio_file => detect_language_with failure audio_file
  end.

(** The path of the temporary file a request creates, and the world
    right after the upload has been saved. *)
Definition tmp_path_of (f : UploadFile) (w : World) : string :=
  NamedTemporaryFile L (fs w) (snd (splitext L (filename f))).

Definition saved (f : UploadFile) (w : World) : World :=
  {| model := model w; load_log := load_log w;
     fs := <[tmp_path_of f w := upload_content f]> (fs w) |}.

(** The world right after a step of saving the upload has raised. *)
Definition interrupted (failure : SaveFailure) (f : UploadFile) (w : World)
  : World :=
  match failure with
  | CreateRaises _ => w
  | ReadRaises _ =>
      {| model := model w; load_log := load_log w;
         fs := <[tmp_path_of f w := []]> (fs w) |}
  | WriteRaises _ written =>
      {| model := model w; load_log := load_log w;
         fs := <[tmp_path_of f w := written]> (fs w) |}
  end.

Definition request_upload (req : Request) : option UploadFile :=
  match req with
  | PostAsr audio_file _ _ _ => audio_file
  | PostDetectLanguage audio_file => Some audio_file
  end.

(** What the process does, one event after the other. *)
Inductive Event :=
| Startup
| Serve (req : Request)
| ServeInterrupted (failure : SaveFailure) (req : Request).

Definition step (ev : Event) (w : World) : World :=
  match ev with
  | Startup => snd (startup_event w)
  | Serve req => snd (app req w)
  | ServeInterrupted failure req => snd (serve (Some failure) req w)
  end.

Definition run (events : list Event) (w : World) : World :=
  foldl (fun w ev => step ev w) w events.

(** The worlds a run goes through, the first one included. *)
Fixpoint worlds (events : list Event) (w : World) : list World :=
  w :: match events with
       | [] => []
       | ev :: rest => worlds rest (step ev w)
       end.

(** [n] calls of [get_model], one after the other. *)
Fixpoint get_model_times (n : nat) (w : World)
  : list (Exception + Handle) * World :=
  match n with
  | O => ([], w)
  | S n' =>
      let '(r, w') := get_model w in
      let '(rs, w'') := get_model_times n' w' in
      (r :: rs, w'')
  end.

(** ** Where an engine call raises

    [backend_raises req w e]: while request [req] is served from world
    [w], the model is available and an engine call of the inference
    raises [e].  One constructor per engine call of the two handlers;
    for the fast engine the calls made while the segment sequence is
    consumed count as well. *)
Inductive backend_raises : Request → World → Exception → Prop :=
| raises_fw_transcribe f task language output w h w1 e fs' :
    ASR_ENGINE cfg = "faster_whisper" →
    get_model (saved f w) = (inr h, w1) →
    fw_transcribe L h (tmp_path_of f w) (fw_kwargs task language) (fs w1)
    = (inl e, fs') →
    backend_raises (PostAsr (Some f) task language output) w e
| raises_fw_segments f task language output w h w1 e segments info fs' :
    ASR_ENGINE cfg = "faster_whisper" →
    get_model (saved f w) = (inr h, w1) →
    fw_transcribe L h (tmp_path_of f w) (fw_kwargs task language) (fs w1)
    = (inr (segments, info), fs') →
    segment_texts segments = inl e →
    backend_raises (PostAsr (Some f) task language output) w e
| raises_ow_transcribe f task language output w h w1 e fs' :
    ASR_ENGINE cfg ≠ "faster_whisper" →
    get_model (saved f w) = (inr h, w1) →
    ow_transcribe L h (tmp_path_of f w) (ow_kwargs task language) (fs w1)
    = (inl e, fs') →
    backend_raises (PostAsr (Some f) task language output) w e
| raises_fw_detect f w h w1 e fs' :
    ASR_ENGINE cfg = "faster_whisper" →
    get_model (saved f w) = (inr h, w1) →
    fw_transcribe L h (tmp_path_of f w) [] (fs w1) = (inl e, fs') →
    backend_raises (PostDetectLanguage f) w e
| raises_load_audio f w h w1 e fs' :
    ASR_ENGINE cfg ≠ "faster_whisper" →
    get_model (saved f w) = (inr h, w1) →
    load_audio L (tmp_path_of f w) (fs w1) = (inl e, fs') →
    backend_raises (PostDetectLanguage f) w e
| raises_pad_or_trim f w h w1 e fs' audio :
    ASR_ENGINE cfg ≠ "faster_whisper" →
    get_model (saved f w) = (inr h, w1) →
    load_audio L (tmp_path_of f w) (fs w1) = (inr audio, fs') →
    pad_or_trim L audio = inl e →
    backend_raises (PostDetectLanguage f) w e
| raises_log_mel_spectrogram f w h w1 e fs' audio audio' :
    ASR_ENGINE cfg ≠ "faster_whisper" →
    get_model (saved f w) = (inr h, w1) →
    load_audio L (tmp_path_of f w) (fs w1) = (inr audio, fs') →
    pad_or_trim L audio = inr audio' →
    log_mel_spectrogram L audio' = inl e →
    backend_raises (PostDetectLanguage f) w e
| raises_mel_to f w h w1 e fs' audio audio' mel :
    ASR_ENGINE cfg ≠ "faster_whisper" →
    get_model (saved f w) = (inr h, w1) →
    load_audio L (tmp_path_of f w) (fs w1) = (inr audio, fs') →
    pad_or_trim L audio = inr audio' →
    log_mel_spectrogram L audio' = inr mel →
    mel_to L mel (device h) = inl e →
    backend_raises (PostDetectLanguage f) w e
| raises_ow_detect_language f w h w1 e fs' audio audio' mel mel' :
    ASR_ENGINE cfg ≠ "faster_whisper" →
    get_model (saved f w) = (inr h, w1) →
    load_audio L (tmp_path_of f w) (fs w1) = (inr audio, fs') →
    pad_or_trim L audio = inr audio' →
    log_mel_spectrogram L audio' = inr mel →
    mel_to L mel (device h) = inr mel' →
    ow_detect_language L h mel' = inl e →
    backend_raises (PostDetectLanguage f) w e.

End Server.

(** How often a sequence of worlds goes from an absent model to a loaded
    one. *)
Definition is_loaded (w : World) : bool :=
  match model w with Some _ => true | None => false end.

Fixpoint loadings (trace : list World) : nat :=
  match trace with
  | w :: ((w' :: _) as rest) =>
      (if negb (is_loaded w) && is_loaded w' then 1 else 0) + loadings rest
  | _ => 0
  end.

(** ** Scripted libraries for concrete runs *)

Module Script.

Definition handle0 : Handle := mkHandle 0 "cpu".

(** Libraries whose calls answer from a fixed script and leave the file
    system alone. *)
Definition libs
  (loads : nat → Exception + Handle)
  (fw : Exception + (Generator * TranscriptionInfo))
  (ow : Exception + gmap string pyval)
  (detect : Exception + (pyval * list (string * Q))) : Libs :=
  {| Audio := unit;
     Mel := unit;
     cuda_is_available := false;
     cuda_get_device_name := inl (mkExc "RuntimeError" "No CUDA GPUs are available");
     load := fun _ n files => (loads n, files);
     fw_transcribe := fun _ _ _ files => (fw, files);
     ow_transcribe := fun _ _ _ files => (ow, files);
     load_audio := fun _ files => (inr tt, files);
     pad_or_trim := fun a => inr a;
     log_mel_spectrogram := fun _ => inr tt;
     mel_to := fun m _ => inr m;
     ow_detect_language := fun _ _ => detect;
     NamedTemporaryFile := fun _ suffix => "/tmp/tmpk3x9" +:+ suffix;
     splitext := fun _ => ("audio", ".wav") |}.

Definition boom : Exception := mkExc "RuntimeError" "CUDA out of memory".

Definition disk_full : Exception :=
  mkExc "OSError" "[Errno 28] No space left on device".

Definition standard : Config := config_of_env ∅.
Definition faster : Config :=
  config_of_env {[ "ASR_ENGINE" := "faster_whisper" ]}.

Definition upload : UploadFile := mkUpload "audio.wav" [].

Definition w0 : World := initial_world ∅.

(** The load always succeeds; one engine call is scripted, the others
    raise. *)
Definition std_libs (result : gmap string pyval) : Libs :=
  libs (fun _ => inr handle0) (inl boom) (inr result) (inl boom).

Definition fast_libs (segs : list Segment) (info : TranscriptionInfo) : Libs :=
  libs (fun _ => inr handle0) (inr (generator_of segs, info)) (inl boom)
    (inl boom).

Definition detect_libs (probs : list (string * Q)) : Libs :=
  libs (fun _ => inr handle0) (inl boom) (inl boom) (inr (PyNone, probs)).

Definition raising_libs : Libs :=
  libs (fun _ => inr handle0) (inl boom) (inl boom) (inl boom).

(** The first load raises, the later ones succeed. *)
Definition flaky_libs : Libs :=
  libs (fun n => match n with O => inl boom | S _ => inr handle0 end)
    (inl boom) (inl boom) (inl boom).

Definition hi_there_none : gmap string pyval :=
  {[ "text" := PyStr " Hi there "; "language" := PyNone ]}.

Definition hi_there : gmap string pyval :=
  {[ "text" := PyStr " Hi there " ]}.

Definition hello_world : list Segment :=
  [mkSegment "Hello"; mkSegment "world"].

Definition en_fr : list (string * Q) := [("en", 9 # 10); ("fr", 1 # 10)].

(** The same distribution with the less probable language first. *)
Definition fr_en : list (string * Q) := [("fr", 1 # 10); ("en", 9 # 10)].

(** Two languages of the same probability, in both orders. *)
Definition tie_en_fr : list (string * Q) := [("en", 1 # 2); ("fr", 1 # 2)].
Definition tie_fr_en : list (string * Q) := [("fr", 1 # 2); ("en", 1 # 2)].

Definition en_info : TranscriptionInfo := mkInfo "en" (99 # 100).

(** A world in which the model has been loaded. *)
Definition w_loaded : World :=
  {| model := Some handle0;
     load_log := [whisper_load_model "base" "cpu" "/data/whisper"];
     fs := ∅ |}.

Definition asr (language : option string) (output : string) : Request :=
  PostAsr (Some upload) "transcribe" language output.

End Script.

(** ** Libraries that leave the file system alone *)

(** Every library call that may change the file system returns it as it
    received it. *)
Definition fs_preserving (L : Libs) : Prop :=
  (∀ c n files, snd (load L c n files) = files)
  ∧ (∀ h path kwargs files, snd (fw_transcribe L h path kwargs files) = files)
  ∧ (∀ h path kwargs files, snd (ow_transcribe L h path kwargs files) = files)
  ∧ (∀ path files, snd (load_audio L path files) = files).

(** The two constructor calls the device and precision policy allows. *)
Definition load_policy (L : Libs) (cfg : Config) (c : LoadCall) : Prop :=
  match c with
  | WhisperModel model_size device compute_type download_root =>
      ASR_ENGINE cfg = "faster_whisper"
      ∧ model_size = ASR_MODEL cfg
      ∧ download_root = ASR_MODEL_PATH cfg
      ∧ (if cuda_is_available L
         then device = "cuda" ∧ compute_type = "float16"
         else device = "cpu" ∧ compute_type = "int8")
  | whisper_load_model name device download_root =>
      ASR_ENGINE cfg ≠ "faster_whisper"
      ∧ name = ASR_MODEL cfg
      ∧ download_root = ASR_MODEL_PATH cfg
      ∧ device = (if cuda_is_available L then "cuda" else "cpu")
  end.

(** The text of a response, when it has one. *)
Definition response_text (r : Response) : option string :=
  match r with
  | TranscriptionDict text _ _ => Some text
  | _ => None
  end.

(** The invariant of the loop of [max]: [m] is the best item so far,
    everything before it is smaller, everything seen after it is not
    larger. *)
Definition best_so_far (probs : list (string * Q))
  (pre : list string) (m : string) (post : list string) : Prop :=
  ∃ p, probs_get probs m = Some p
       ∧ (∀ k q, k ∈ pre → probs_get probs k = Some q → (q < p)%Q)
       ∧ (∀ k q, k ∈ post → probs_get probs k = Some q → (q <= p)%Q).

(** ** More scripted data *)

Module Cases.

(** The fast engine returns a sequence that raises on its first [next]. *)
Definition broken_segments_libs : Libs :=
  Script.libs (fun _ => inr Script.handle0)
    (inr (Fail Script.boom, Script.en_info)) (inl Script.boom)
    (inl Script.boom).

(** A result of the standard engine without text. *)
Definition no_text : gmap string pyval := {[ "language" := PyStr "en" ]}.

(** Two languages share the largest probability. *)
Definition tied : list (string * Q) :=
  [("de", 1 # 5); ("en", 2 # 5); ("fr", 2 # 5)].

(** A file system with one file that is not the temporary file. *)
Definition one_file : FS := {[ "/data/whisper/base.pt" := [] ]}.

(** A machine with a GPU: CUDA is available, the device has a name, the
    load succeeds on the device and the standard engine answers. *)
Definition gpu_handle : Handle := mkHandle 0 "cuda".

Definition gpu_libs : Libs :=
  {| Audio := unit;
     Mel := unit;
     cuda_is_available := true;
     cuda_get_device_name := inr "NVIDIA GeForce RTX 3090";
     load := fun _ _ files => (inr gpu_handle, files);
     fw_transcribe := fun _ _ _ files => (inl Script.boom, files);
     ow_transcribe := fun _ _ _ files => (inr Script.hi_there, files);
     load_audio := fun _ files => (inr tt, files);
     pad_or_trim := fun a => inr a;
     log_mel_spectrogram := fun _ => inr tt;
     mel_to := fun m _ => inr m;
     ow_detect_language := fun _ _ => inr (PyNone, Script.en_fr);
     NamedTemporaryFile := fun _ suffix => "/tmp/tmpk3x9" +:+ suffix;
     splitext := fun _ => ("audio", ".wav") |}.

End Cases.

(** * The start script: a shallow embedding of [start_services.py]

    The script drives git, docker and sed through [subprocess] and edits
    two configuration files.  External programs and the platform name are
    collected in the record [OS]; the state is the working directory, the
    directory tree, and the log of the commands handed to [subprocess].
    [print] calls change none of them and are left out. *)

(** ** More string operations *)

Module Text.

(** [s.startswith(p)] *)
Fixpoint startswith (p s : string) : bool :=
  match p, s with
  | EmptyString, _ => true
  | String a p', String b s' => if Ascii.eqb a b then startswith p' s' else false
  | String _ _, EmptyString => false
  end.

(** [s[n:]] *)
Fixpoint drop (n : nat) (s : string) : string :=
  match n, s with
  | O, _ => s
  | S n', String _ s' => drop n' s'
  | S _, EmptyString => EmptyString
  end.

(** [sub in s] *)
Fixpoint contains (sub s : string) : bool :=
  startswith sub s
  || match s with
     | EmptyString => false
     | String _ s' => contains sub s'
     end.

(** [s.split(sep)] for a separator of one character. *)
Fixpoint split (sep : Ascii.ascii) (s : string) : list string :=
  match s with
  | EmptyString => [EmptyString]
  | String c s' =>
      if Ascii.eqb c sep then EmptyString :: split sep s'
      else match split sep s' with
           | x :: xs => String c x :: xs
           | [] => [String c EmptyString]
           end
  end.

(** [s.replace(old, new)] for [old] that is not empty: the occurrences
    of [old] are taken from left to right and do not overlap.  [skip]
    counts the characters of an occurrence that are still to be passed. *)
Fixpoint replace_from (old new : string) (skip : nat) (s : string) : string :=
  match s with
  | EmptyString => EmptyString
  | String c s' =>
      match skip with
      | S k => replace_from old new k s'
      | O =>
          if startswith old s
          then new +:+ replace_from old new (String.length old - 1) s'
          else String c (replace_from old new 0 s')
      end
  end.

Definition replace (old new s : string) : string := replace_from old new 0 s.

(** No proper suffix of [s] that is not empty is a prefix of [s]. *)
Definition no_border (s : string) : bool :=
  forallb (fun k => negb (startswith (drop k s) s))
    (seq 1 (String.length s - 1)).

(** The double quote, and the line feed. *)
Definition dquote : string := String (Ascii.ascii_of_nat 34) EmptyString.
Definition LF : Ascii.ascii := Ascii.ascii_of_nat 10.

End Text.

Module Orchestration.

(** ** The host *)

(** A path is the list of its components below the directory the script
    is started in; [path_str] is the string [os.path.join] builds on a
    POSIX system. *)
Definition path_str (p : list string) : string := String.concat "/" p.

Inductive node :=
| Dir
| File (content : string).

(** What [subprocess] reports: the exit status and the captured output,
    or the exception of a program that could not be started. *)
Inductive outcome :=
| Exited (returncode : Z) (stdout : string)
| NotStarted (e : Exception).

(** What the script can raise. *)
Inductive error :=
| CalledProcessError (returncode : Z) (cmd : list string)
| OtherError (e : Exception).

Record OS := mkOS {
  spawn :
    list string → list string → gmap (list string) node →
    outcome * gmap (list string) node;
  platform_system : string
}.

Record Host := mkHost {
  cwd : list string;
  tree : gmap (list string) node;
  ran : list (list string * list string)
}.

Definition Sh (A : Type) : Type := Host → (error + A) * Host.

Definition sh_ret {A} (a : A) : Sh A := fun h => (inr a, h).
Definition sh_raise {A} (e : error) : Sh A := fun h => (inl e, h).
Definition sh_bind {A B} (m : Sh A) (k : A → Sh B) : Sh B :=
  fun h =>
    match m h with
    | (inl e, h') => (inl e, h')
    | (inr a, h') => k a h'
    end.

Notation "'let!' x ':=' m 'in' k" := (sh_bind m (fun x => k))
  (at level 10, x pattern, m at level 200, k at level 200).

(** [try: body except subprocess.CalledProcessError: pass] *)
Definition except_called (body : Sh unit) : Sh unit :=
  fun h =>
    match body h with
    | (inl (CalledProcessError _ _), h') => (inr tt, h')
    | r => r
    end.

(** [try: body except Exception: handler] *)
Definition except_exception {A} (body : Sh A) (handler : Sh A) : Sh A :=
  fun h =>
    match body h with
    | (inl _, h') => handler h'
    | r => r
    end.

(** [for x in l: body x] *)
Fixpoint for_each {A} (l : list A) (body : A → Sh unit) : Sh unit :=
  match l with
  | [] => sh_ret tt
  | x :: rest => let! _ := body x in for_each rest body
  end.

Section Functions.

Variable os : OS.

(** ** Library calls *)

(** [subprocess.run(cmd, check=check)] in the working directory: the
    command is logged, the program may change the tree, and with [check]
    an exit status other than zero raises. *)
Definition subprocess_run (cmd : list string) (check : bool)
  : Sh (Z * string) :=
  fun h =>
    let '(o, t') := spawn os cmd (cwd h) (tree h) in
    let h' := {| cwd := cwd h; tree := t';
                 ran := (ran h ++ [(cwd h, cmd)])%list |} in
    match o with
    | NotStarted e => (inl (OtherError e), h')
    | Exited rc out =>
        if check && negb (rc =? 0)%Z
        then (inl (CalledProcessError rc cmd), h')
        else (inr (rc, out), h')
    end.

(** [subprocess.check_output(cmd).decode('utf-8').strip()] *)
Definition check_output_stripped (cmd : list string) : Sh string :=
  let! (_, out) := subprocess_run cmd true in
  sh_ret (Str.strip out).

(** [os.path.exists(p)] *)
Definition os_exists (p : list string) : Sh bool :=
  fun h => (inr (bool_decide (is_Some (tree h !! (cwd h ++ p)%list))), h).

(** [os.chdir(d)] for one directory name or for the parent directory. *)
Definition os_chdir (d : string) : Sh unit :=
  fun h =>
    if String.eqb d ".." then
      (inr tt, {| cwd := removelast (cwd h); tree := tree h; ran := ran h |})
    else
      match tree h !! (cwd h ++ [d])%list with
      | Some Dir =>
          (inr tt,
           {| cwd := (cwd h ++ [d])%list; tree := tree h; ran := ran h |})
      | Some (File _) =>
          (inl (OtherError
                  (mkExc "NotADirectoryError"
                     ("[Errno 20] Not a directory: '" +:+ d +:+ "'"))), h)
      | None => (inl (OtherError (FileNotFoundError d)), h)
      end.

(** [open(p, 'r').read()] *)
Definition read_text (p : list string) : Sh string :=
  fun h =>
    match tree h !! (cwd h ++ p)%list with
    | Some (File content) => (inr content, h)
    | Some Dir =>
        (inl (OtherError
                (mkExc "IsADirectoryError"
                   ("[Errno 21] Is a directory: '" +:+ path_str p +:+ "'"))),
         h)
    | None => (inl (OtherError (FileNotFoundError (path_str p))), h)
    end.

(** The directory a new file is created in has to exist. *)
Definition parent_is_dir (t : gmap (list string) node) (p : list string) : bool :=
  match removelast p with
  | [] => true
  | d => match t !! d with Some Dir => true | _ => false end
  end.

(** [open(p, 'w').write(content)] *)
Definition write_text (p : list string) (content : string) : Sh unit :=
  fun h =>
    let target := (cwd h ++ p)%list in
    match tree h !! target with
    | Some Dir =>
        (inl (OtherError
                (mkExc "IsADirectoryError"
                   ("[Errno 21] Is a directory: '" +:+ path_str p +:+ "'"))),
         h)
    | _ =>
        if parent_is_dir (tree h) target then
          (inr tt,
           {| cwd := cwd h; tree := <[target := File content]> (tree h);
              ran := ran h |})
        else (inl (OtherError (FileNotFoundError (path_str p))), h)
    end.

(** [shutil.copyfile(src, dst)] for two different paths. *)
Definition copyfile (src dst : list string) : Sh unit :=
  let! content := read_text src in
  write_text dst content.

(** ** [run_command]

    No caller passes the [cwd] parameter, so the command runs in the
    working directory. *)

Definition run_command (cmd : list string) : Sh unit :=
  let! _ := subprocess_run cmd true in
  sh_ret tt.

(** ** [clone_supabase_repo] *)

Definition git_clone_cmd : list string :=
  ["git"; "clone"; "--filter=blob:none"; "--no-checkout";
   "https://github.com/supabase/supabase.git"].

Definition sparse_checkout_cmds : list (list string) :=
  [["git"; "sparse-checkout"; "init"; "--cone"];
   ["git"; "sparse-checkout"; "set"; "docker"];
   ["git"; "checkout"; "master"]].

Definition git_pull_cmd : list string := ["git"; "pull"].

Definition clone_supabase_repo : Sh unit :=
  let! present := os_exists ["supabase"] in
  if negb present then
    let! _ := run_command git_clone_cmd in
    let! _ := os_chdir "supabase" in
    let! _ := run_command ["git"; "sparse-checkout"; "init"; "--cone"] in
    let! _ := run_command ["git"; "sparse-checkout"; "set"; "docker"] in
    let! _ := run_command ["git"; "checkout"; "master"] in
    os_chdir ".."
  else
    let! _ := os_chdir "supabase" in
    let! _ := run_command git_pull_cmd in
    os_chdir "..".

(** ** [prepare_supabase_env] *)

Definition prepare_supabase_env : Sh unit :=
  let env_path := ["supabase"; "docker"; ".env"] in
  let env_example_path := [".env"] in
  copyfile env_example_path env_path.

(** ** The compose commands *)

(** [environment and environment == value] *)
Definition env_is (environment : option string) (value : string) : bool :=
  match environment with
  | Some s => negb (Str.is_empty s) && String.eqb s value
  | None => false
  end.

(** The [-f] arguments both functions append, in the same way. *)
Definition extend_files (cmd : list string) (environment : option string)
  : list string :=
  let cmd := (cmd ++ ["-f"; "docker-compose.yml"])%list in
  let cmd :=
    if env_is environment "private"
    then (cmd ++ ["-f"; "docker-compose.override.private.yml"])%list
    else cmd in
  let cmd :=
    if env_is environment "public"
    then ((cmd ++ ["-f"; "docker-compose.override.public.yml"])
            ++ ["-f"; "docker-compose.override.public.supabase.yml"])%list
    else cmd in
  cmd.

Definition profiles_to_clean : list string := ["cpu"; "gpu-nvidia"; "gpu-amd"].

(** The [down] command of one profile, and the one without profile. *)
Definition down_profile_cmd (prof : string) (environment : option string)
  : list string :=
  let cmd := ["docker"; "compose"; "-p"; "localai"; "--profile"; prof] in
  (extend_files cmd environment ++ ["down"])%list.

Definition down_cmd (environment : option string) : list string :=
  let cmd := ["docker"; "compose"; "-p"; "localai"] in
  (extend_files cmd environment ++ ["down"])%list.

(** ** [stop_existing_containers] *)

Definition stop_existing_containers
  (profile environment : option string) : Sh unit :=
  let! _ := for_each profiles_to_clean
              (fun prof =>
                 except_called (run_command (down_profile_cmd prof environment))) in
  except_called (run_command (down_cmd environment)).

(** ** [start_services] *)

(** [profile and profile != "none"] *)
Definition profile_given (profile : option string) : option string :=
  match profile with
  | Some s =>
      if negb (Str.is_empty s) && negb (String.eqb s "none") then Some s
      else None
  | None => None
  end.

Definition up_cmd (profile environment : option string) : list string :=
  let cmd := ["docker"; "compose"; "-p"; "localai"] in
  let cmd :=
    match profile_given profile with
    | Some s => (cmd ++ ["--profile"; s])%list
    | None => cmd
    end in
  (extend_files cmd environment ++ ["up"; "-d"])%list.

Definition check_cmd : list string :=
  ["docker"; "ps"; "-a"; "--filter"; "name=n8n"; "--format";
   "{{.Names}} {{.Status}}"].

(** [line and 'n8n' in line and 'Created' in line] *)
Definition n8n_created (line : string) : bool :=
  negb (Str.is_empty line)
  && Text.contains "n8n" line && Text.contains "Created" line.

Definition start_n8n_cmd : list string := ["docker"; "start"; "n8n"].

(** The body of the loop over the lines of [docker ps]. *)
Definition start_if_created (line : string) : Sh unit :=
  if n8n_created line then
    let! _ := subprocess_run start_n8n_cmd true in
    sh_ret tt
  else sh_ret tt.

Definition start_n8n_manually : Sh unit :=
  let! (_, stdout) := subprocess_run check_cmd true in
  for_each (Text.split Text.LF (Str.strip stdout)) start_if_created.

Definition start_services (profile environment : option string) : Sh unit :=
  fun h =>
    match run_command (up_cmd profile environment) h with
    | (inl (CalledProcessError _ _), h') =>
        except_exception start_n8n_manually (sh_ret tt) h'
    | r => r
    end.

(** ** [generate_searxng_secret_key] *)

Definition settings_path : list string := ["searxng"; "settings.yml"].
Definition settings_base_path : list string := ["searxng"; "settings-base.yml"].

Definition openssl_cmd : list string := ["openssl"; "rand"; "-hex"; "32"].

Definition ps_command : list string :=
  ["powershell"; "-Command";
   "$randomBytes = New-Object byte[] 32; "
   +:+ "(New-Object Security.Cryptography.RNGCryptoServiceProvider).GetBytes($randomBytes); "
   +:+ "$secretKey = -join ($randomBytes | ForEach-Object { "
   +:+ Text.dquote +:+ "{0:x2}" +:+ Text.dquote +:+ " -f $_ }); "
   +:+ "(Get-Content searxng/settings.yml) -replace 'ultrasecretkey', $secretKey | Set-Content searxng/settings.yml"].

(** [f"s|ultrasecretkey|{random_key}|g"] *)
Definition sed_script (random_key : string) : string :=
  "s|ultrasecretkey|" +:+ random_key +:+ "|g".

(** The platform branch inside the last [try]. *)
Definition generate_key : Sh unit :=
  let system := platform_system os in
  if String.eqb system "Windows" then
    let! _ := subprocess_run ps_command true in
    sh_ret tt
  else if String.eqb system "Darwin" then
    let! random_key := check_output_stripped openssl_cmd in
    let sed_cmd :=
      ["sed"; "-i"; EmptyString; sed_script random_key;
       path_str settings_path] in
    let! _ := subprocess_run sed_cmd true in
    sh_ret tt
  else
    let! random_key := check_output_stripped openssl_cmd in
    let sed_cmd :=
      ["sed"; "-i"; sed_script random_key; path_str settings_path] in
    let! _ := subprocess_run sed_cmd true in
    sh_ret tt.

Definition generate_searxng_secret_key : Sh unit :=
  let! base := os_exists settings_base_path in
  if negb base then sh_ret tt
  else
    let! present := os_exists settings_path in
    let! created :=
      if negb present then
        except_exception
          (let! _ := copyfile settings_base_path settings_path in sh_ret true)
          (sh_ret false)
      else sh_ret true in
    if negb created then sh_ret tt
    else
      let! configured :=
        except_exception
          (let! content := read_text settings_path in
           sh_ret (negb (Text.contains "ultrasecretkey" content)))
          (sh_ret false) in
      if configured then sh_ret tt
      else except_exception generate_key (sh_ret tt).

(** ** [check_and_fix_docker_compose_for_searxng] *)

Definition docker_compose_path : list string := ["docker-compose.yml"].

Definition cap_drop : string := "cap_drop: - ALL".
Definition cap_drop_commented : string :=
  "# cap_drop: - ALL  # Temporarily commented out for first run".

Definition searxng_ps_cmd : list string :=
  ["docker"; "ps"; "--filter"; "name=searxng"; "--format"; "{{.Names}}"].

Definition uwsgi_probe_cmd (container_name : string) : list string :=
  ["docker"; "exec"; container_name; "sh"; "-c";
   "[ -f /etc/searxng/uwsgi.ini ] && echo 'found' || echo 'not_found'"].

(** The inner [try] block: the value of [is_first_run] it leaves. *)
Definition probe_first_run : Sh bool :=
  let! (_, stdout) := subprocess_run searxng_ps_cmd true in
  let searxng_containers := Text.split Text.LF (Str.strip stdout) in
  match List.filter (fun c => negb (Str.is_empty c)) searxng_containers with
  | container_name :: _ =>
      let! (_, stdout) := subprocess_run (uwsgi_probe_cmd container_name) false in
      if Text.contains "found" stdout then sh_ret false else sh_ret true
  | [] => sh_ret true
  end.

(** The [if] and [elif] after the probe. *)
Definition toggle_cap_drop (content : string) (is_first_run : bool) : Sh unit :=
  if is_first_run && Text.contains cap_drop content then
    let modified_content :=
      Text.replace cap_drop cap_drop_commented content in
    write_text docker_compose_path modified_content
  else if negb is_first_run && Text.contains cap_drop_commented content then
    let modified_content :=
      Text.replace cap_drop_commented cap_drop content in
    write_text docker_compose_path modified_content
  else sh_ret tt.

Definition check_and_fix_docker_compose_for_searxng : Sh unit :=
  let! present := os_exists docker_compose_path in
  if negb present then sh_ret tt
  else
    except_exception
      (let! content := read_text docker_compose_path in
       let! is_first_run := except_exception probe_first_run (sh_ret true) in
       toggle_cap_drop content is_first_run)
      (sh_ret tt).

(** ** [main] *)

(** The values [argparse] accepts. *)
Definition profile_choices : list string :=
  ["cpu"; "gpu-nvidia"; "gpu-amd"; "none"].
Definition environment_choices : list string := ["private"; "public"].

(** [main] after [parse_args] has accepted the two values. *)
Definition main (profile environment : string) : Sh unit :=
  let! _ := clone_supabase_repo in
  let! _ := prepare_supabase_env in
  let! _ := generate_searxng_secret_key in
  let! _ := check_and_fix_docker_compose_for_searxng in
  let! _ := stop_existing_containers (Some profile) (Some environment) in
  start_services (Some profile) (Some environment).

End Functions.

(** The commands of a log, without the directories. *)
Definition commands (log : list (list string * list string))
  : list (list string) := snd <$> log.

(** The arguments that follow a [-f] in a command. *)
Fixpoint file_args (cmd : list string) : list string :=
  match cmd with
  | flag :: ((file :: _) as rest) =>
      if String.eqb flag "-f" then file :: file_args rest else file_args rest
  | _ => []
  end.

(** The commands [stop_existing_containers] hands to [run_command], in
    order. *)
Definition stop_commands (environment : option string) : list (list string) :=
  (((fun prof => down_profile_cmd prof environment) <$> profiles_to_clean)
     ++ [down_cmd environment])%list.

(** An [up -d] command with its last two words replaced by [down]. *)
Definition down_of (cmd : list string) : list string :=
  (removelast (removelast cmd) ++ ["down"])%list.

(** Log entries for commands run in one directory. *)
Definition run_in (dir : list string) (cmds : list (list string))
  : list (list string * list string) :=
  (fun cmd => (dir, cmd)) <$> cmds.

(** Every [docker start n8n] exits with status zero. *)
Definition n8n_starts (os : OS) : Prop :=
  ∀ dir t, ∃ out t', spawn os start_n8n_cmd dir t = (Exited 0 out, t').

(** No [docker start n8n] exits with status zero. *)
Definition n8n_fails (os : OS) : Prop :=
  ∀ dir t out, fst (spawn os start_n8n_cmd dir t) ≠ Exited 0 out.

(** The lines of an answer of [docker ps] that make the loop start n8n. *)
Definition created_lines (out : string) : list string :=
  List.filter n8n_created (Text.split Text.LF (Str.strip out)).

(** A computation never raises. *)
Definition returns {A} (m : Sh A) : Prop := ∀ h, ∃ a, fst (m h) = inr a.

(** A computation only adds to the log of commands. *)
Definition grows {A} (m : Sh A) : Prop :=
  ∀ h, ∃ l, ran (snd (m h)) = (ran h ++ l)%list.

(** ** Scripted hosts *)

(** Every program exits with the given status and prints nothing. *)
Definition os_exit (rc : Z) (system : string) : OS :=
  mkOS (fun _ _ t => (Exited rc EmptyString, t)) system.

(** [docker compose up] fails, [docker ps] lists two containers created
    but not running, every other program succeeds. *)
Definition os_n8n : OS :=
  mkOS (fun cmd _ t =>
          match cmd with
          | "docker" :: "compose" :: _ => (Exited 1 EmptyString, t)
          | "docker" :: "ps" :: _ =>
              (Exited 0
                 ("n8n-import Created" +:+ String Text.LF "n8n Created"
                  +:+ String Text.LF EmptyString), t)
          | _ => (Exited 0 EmptyString, t)
          end) "Linux".

(** The same, but [docker start] exits with status one. *)
Definition os_n8n_fails : OS :=
  mkOS (fun cmd _ t =>
          match cmd with
          | "docker" :: "compose" :: _ => (Exited 1 EmptyString, t)
          | "docker" :: "ps" :: _ =>
              (Exited 0
                 ("n8n-import Created" +:+ String Text.LF "n8n Created"
                  +:+ String Text.LF EmptyString), t)
          | "docker" :: "start" :: _ => (Exited 1 EmptyString, t)
          | _ => (Exited 0 EmptyString, t)
          end) "Linux".

Definition empty_host : Host := mkHost [] ∅ [].

(** A checkout with an [.env] file and the [supabase/docker] directory. *)
Definition env_host : Host :=
  mkHost []
    (<[ [".env"] := File "POSTGRES_PASSWORD=secret" ]>
       (<[ ["supabase"] := Dir ]>
          (<[ ["supabase"; "docker"] := Dir ]> ∅)))
    [].

(** A checkout whose SearXNG settings still hold the placeholder. *)
Definition searxng_host : Host :=
  mkHost []
    (<[ ["searxng"] := Dir ]>
       (<[ settings_base_path := File "secret_key: ultrasecretkey" ]>
          (<[ settings_path := File "secret_key: ultrasecretkey" ]> ∅)))
    [].

(** A checkout with base settings that hold a key, and no
    [settings.yml]. *)
Definition fresh_searxng_host : Host :=
  mkHost []
    (<[ ["searxng"] := Dir ]>
       (<[ settings_base_path := File "secret_key: 0f3a" ]> ∅))
    [].

(** A compose file with the directive on one line. *)
Definition compose_text : string :=
  "services: searxng: cap_drop: - ALL cap_add: - CHOWN".

Definition compose_host : Host :=
  mkHost [] (<[ docker_compose_path := File compose_text ]> ∅) [].

(** [docker ps] names a running container and the probe inside it
    prints the given answer. *)
Definition os_running (answer : string) : OS :=
  mkOS (fun cmd _ t =>
          match cmd with
          | "docker" :: "ps" :: _ =>
              (Exited 0 ("searxng" +:+ String Text.LF EmptyString), t)
          | "docker" :: "exec" :: _ =>
              (Exited 0 (answer +:+ String Text.LF EmptyString), t)
          | _ => (Exited 0 EmptyString, t)
          end) "Linux".

(** No container is listed while the compose file is the original one;
    afterwards a container is running and the probe finds the file. *)
Definition os_first_then_later : OS :=
  mkOS (fun cmd _ t =>
          match cmd with
          | "docker" :: "ps" :: _ =>
              match t !! docker_compose_path with
              | Some (File c) =>
                  if String.eqb c compose_text then (Exited 0 EmptyString, t)
                  else (Exited 0 ("searxng" +:+ String Text.LF EmptyString), t)
              | _ => (Exited 0 EmptyString, t)
              end
          | "docker" :: "exec" :: _ =>
              (Exited 0 ("found" +:+ String Text.LF EmptyString), t)
          | _ => (Exited 0 EmptyString, t)
          end) "Linux".

(** [openssl] prints a key, every other program prints nothing; all exit
    with status zero. *)
Definition os_openssl (system : string) : OS :=
  mkOS (fun cmd _ t =>
          match cmd with
          | "openssl" :: _ =>
              (Exited 0 ("0f3a" +:+ String Text.LF EmptyString), t)
          | _ => (Exited 0 EmptyString, t)
          end) system.

End Orchestration.

(** * Properties *)

(** ** [strip] removes exactly the surrounding whitespace *)

Module StrFacts.
Import Str.

Lemma append_cons (c : Ascii.ascii) (a b : string) :
  String c a +:+ b = String c (a +:+ b).
Proof. reflexivity. Qed.

Lemma append_nil (b : string) : EmptyString +:+ b = b.
Proof. reflexivity. Qed.

Lemma lstrip_split (s : string) :
  ∃ pre, s = pre +:+ lstrip s ∧ all_space pre = true.
Proof.
  induction s as [|c r [pre [Hr Hp]]]; simpl.
  - by exists EmptyString.
  - destruct (isspace c) eqn:Hc.
    + exists (String c pre). simpl. rewrite Hc, Hp, append_cons.
      split; [by f_equal|done].
    + by exists EmptyString.
Qed.

Lemma lstrip_no_leading_space (s : string) :
  starts_with_space (lstrip s) = false.
Proof.
  induction s as [|c r IH]; simpl; [done|].
  destruct (isspace c) eqn:Hc; [done|]. simpl. by rewrite Hc.
Qed.

Lemma rstrip_split (s : string) :
  ∃ post, s = rstrip s +:+ post ∧ all_space post = true.
Proof.
  induction s as [|c r [post [Hr Hp]]]; simpl.
  - by exists EmptyString.
  - destruct (isspace c) eqn:Hc; simpl.
    + destruct (rstrip r) eqn:Hrs; simpl.
      * exists (String c post). rewrite append_nil in Hr |- *. subst r.
        simpl. by rewrite Hc, Hp.
      * exists post. split; [|done]. rewrite append_cons. by f_equal.
    + exists post. split; [|done]. rewrite append_cons. by f_equal.
Qed.

Lemma rstrip_no_trailing_space (s : string) :
  ends_with_space (rstrip s) = false.
Proof.
  induction s as [|c r IH]; simpl; [done|].
  destruct (isspace c) eqn:Hc; simpl.
  - destruct (rstrip r) eqn:Hrs; simpl; [done|]. exact IH.
  - destruct (rstrip r) eqn:Hrs; simpl; [done|]. exact IH.
Qed.

Lemma rstrip_keeps_head (s : string) :
  starts_with_space s = false → starts_with_space (rstrip s) = false.
Proof.
  destruct s as [|c r]; simpl; [done|].
  intros Hc. by rewrite Hc.
Qed.

(** The result of [strip] sits inside the argument between two runs of
    whitespace and has whitespace at neither end. *)
Lemma strip_spec (s : string) :
  (∃ pre post,
      s = pre +:+ strip s +:+ post
      ∧ all_space pre = true ∧ all_space post = true)
  ∧ starts_with_space (strip s) = false
  ∧ ends_with_space (strip s) = false.
Proof.
  unfold strip. split; [|split].
  - destruct (lstrip_split s) as [pre [Hs Hpre]].
    destruct (rstrip_split (lstrip s)) as [post [Hl Hpost]].
    exists pre, post. split; [|done]. by rewrite <- Hl.
  - apply rstrip_keeps_head, lstrip_no_leading_space.
  - apply rstrip_no_trailing_space.
Qed.

(** [join] puts one separator between two neighbours. *)
Lemma join_cons (sep x y : string) (l : list string) :
  join sep (x :: y :: l) = x +:+ sep +:+ join sep (y :: l).
Proof. reflexivity. Qed.

End StrFacts.

(** ** Structure of the handlers *)

Section HandlerFacts.

Variable L : Libs.
Variable cfg : Config.

Lemma os_unlink_missing (path : string) (w : World) :
  fs w !! path = None → os_unlink path w = (inl (FileNotFoundError path), w).
Proof. intros H. unfold os_unlink. by rewrite H. Qed.

(** The [finally] block never raises and leaves the world without the
    file, whether or not the file was still there. *)
Lemma cleanup_spec (path : string) (w : World) :
  cleanup path w = (inr tt, without path w).
Proof.
  unfold cleanup, os_path_exists, os_unlink, without.
  destruct (fs w !! path) as [content|] eqn:E.
  - rewrite bool_decide_eq_true_2 by (by eexists). done.
  - rewrite bool_decide_eq_false_2 by (intros [? ?]; done).
    rewrite delete_id by done. by destruct w.
Qed.

(** [try: body / except Exception / finally: cleanup] as one step. *)
Lemma guarded_spec (body : St Exception Response) (path : string) (w : World) :
  try_finally
    (try_except body (fun e => raise (HTTPException 500 (str e))))
    (cleanup path) w
  = (surfaced (fst (body w)), without path (snd (body w))).
Proof.
  unfold try_finally, try_except, raise.
  destruct (body w) as [[e|a] w']; simpl; by rewrite cleanup_spec.
Qed.

Lemma save_upload_spec {E} (f : UploadFile) (w : World) :
  save_upload L (E:=E) f w = (inr (tmp_path_of L f w), saved L f w).
Proof. reflexivity. Qed.

Lemma transcribe_spec (f : UploadFile) (task : string)
  (language : option string) (output : string) (w : World) :
  transcribe L cfg (Some f) task language output w
  = (surfaced
       (fst (transcribe_body L cfg (tmp_path_of L f w) task language output
               (saved L f w))),
     without (tmp_path_of L f w)
       (snd (transcribe_body L cfg (tmp_path_of L f w) task language output
               (saved L f w)))).
Proof.
  unfold transcribe, transcribe_with, bind, save_upload_with.
  rewrite save_upload_spec. apply guarded_spec.
Qed.

Lemma detect_language_spec (f : UploadFile) (w : World) :
  detect_language L cfg f w
  = (surfaced (fst (detect_body L cfg (tmp_path_of L f w) (saved L f w))),
     without (tmp_path_of L f w)
       (snd (detect_body L cfg (tmp_path_of L f w) (saved L f w)))).
Proof.
  unfold detect_language, detect_language_with, bind, save_upload_with.
  rewrite save_upload_spec. apply guarded_spec.
Qed.

(** [app] is [serve] without a failing step. *)
Lemma app_serve (req : Request) : app L cfg req = serve L cfg None req.
Proof. by destruct req. Qed.

(** When a step of saving the upload raises, the [try] block is not
    entered: the exception leaves the handler as it is and nothing is
    removed. *)
Lemma serve_interrupted (failure : SaveFailure) (req : Request)
  (f : UploadFile) (w : World) :
  request_upload req = Some f →
  serve L cfg (Some failure) req w
  = (inl (Propagated (failure_exception failure)), interrupted L failure f w).
Proof.
  intros Hreq.
  destruct req as [[f'|] task language output | f']; simpl in Hreq;
    simplify_eq; unfold serve, transcribe_with, detect_language_with, bind,
      save_upload_with; by destruct failure.
Qed.

Lemma without_lookup (path : string) (w : World) :
  fs (without path w) !! path = None.
Proof. apply lookup_delete_eq. Qed.

Lemma saved_lookup (f : UploadFile) (w : World) :
  fs (saved L f w) !! tmp_path_of L f w = Some (upload_content f).
Proof. apply lookup_insert_eq. Qed.

(** ** [get_model] *)

Lemma get_model_cached (w : World) (h : Handle) :
  model w = Some h → get_model L cfg w = (inr h, w).
Proof. intros H. unfold get_model. by rewrite H. Qed.

Lemma get_model_absent (w : World) :
  model w = None →
  get_model L cfg w
  = let r := load L (load_call L cfg) (length (load_log w)) (fs w) in
    (fst r,
     {| model := match fst r with inl _ => None | inr h => Some h end;
        load_log := (load_log w ++ [load_call L cfg])%list;
        fs := snd r |}).
Proof.
  intros H. unfold get_model. rewrite H.
  by destruct (load L _ _ _) as [[e|h] fs'].
Qed.

End HandlerFacts.

(** ** The try bodies, engine call by engine call *)

Section BodyFacts.

Variable L : Libs.
Variable cfg : Config.

Lemma engine_is_faster :
  ASR_ENGINE cfg = "faster_whisper" →
  String.eqb (ASR_ENGINE cfg) "faster_whisper" = true.
Proof. intros ->. apply String.eqb_refl. Qed.

Lemma engine_is_standard :
  ASR_ENGINE cfg ≠ "faster_whisper" →
  String.eqb (ASR_ENGINE cfg) "faster_whisper" = false.
Proof. apply String.eqb_neq. Qed.

(** Fast engine: the text is the join of the drained segments. *)
Lemma transcribe_text_fast (tmp_path task : string) (language : option string)
  (w w1 : World) (h : Handle) (segments : Generator)
  (info : TranscriptionInfo) (fs' : FS) :
  ASR_ENGINE cfg = "faster_whisper" →
  get_model L cfg w = (inr h, w1) →
  fw_transcribe L h tmp_path (fw_kwargs task language) (fs w1)
  = (inr (segments, info), fs') →
  transcribe_text L cfg tmp_path task language w
  = (match segment_texts segments with
     | inl e => inl e
     | inr texts =>
         inr (PyStr (Str.join " " texts), PyStr (info_language info))
     end,
     {| model := model w1; load_log := load_log w1; fs := fs' |}).
Proof.
  intros Heng Hget Hfw.
  unfold transcribe_text, bind, call_fs, call, ret.
  rewrite Hget, (engine_is_faster Heng), Hfw.
  by destruct (segment_texts segments).
Qed.

Lemma transcribe_text_fast_raises (tmp_path task : string)
  (language : option string) (w w1 : World) (h : Handle)
  (e : Exception) (fs' : FS) :
  ASR_ENGINE cfg = "faster_whisper" →
  get_model L cfg w = (inr h, w1) →
  fw_transcribe L h tmp_path (fw_kwargs task language) (fs w1)
  = (inl e, fs') →
  transcribe_text L cfg tmp_path task language w
  = (inl e, {| model := model w1; load_log := load_log w1; fs := fs' |}).
Proof.
  intros Heng Hget Hfw.
  unfold transcribe_text, bind, call_fs.
  by rewrite Hget, (engine_is_faster Heng), Hfw.
Qed.

(** Standard engine: [result["text"]] and [result.get("language", language)]. *)
Lemma transcribe_text_standard (tmp_path task : string)
  (language : option string) (w w1 : World) (h : Handle)
  (result : gmap string pyval) (fs' : FS) :
  ASR_ENGINE cfg ≠ "faster_whisper" →
  get_model L cfg w = (inr h, w1) →
  ow_transcribe L h tmp_path (ow_kwargs task language) (fs w1)
  = (inr result, fs') →
  transcribe_text L cfg tmp_path task language w
  = (match getitem result "text" with
     | inl e => inl e
     | inr text =>
         inr (text, dict_get result "language" (of_optional language))
     end,
     {| model := model w1; load_log := load_log w1; fs := fs' |}).
Proof.
  intros Heng Hget How.
  unfold transcribe_text, bind, call_fs, call, ret.
  rewrite Hget, (engine_is_standard Heng), How.
  by destruct (getitem result "text").
Qed.

Lemma transcribe_text_standard_raises (tmp_path task : string)
  (language : option string) (w w1 : World) (h : Handle)
  (e : Exception) (fs' : FS) :
  ASR_ENGINE cfg ≠ "faster_whisper" →
  get_model L cfg w = (inr h, w1) →
  ow_transcribe L h tmp_path (ow_kwargs task language) (fs w1)
  = (inl e, fs') →
  transcribe_text L cfg tmp_path task language w
  = (inl e, {| model := model w1; load_log := load_log w1; fs := fs' |}).
Proof.
  intros Heng Hget How.
  unfold transcribe_text, bind, call_fs.
  by rewrite Hget, (engine_is_standard Heng), How.
Qed.

(** The body raises what the engine branch raises. *)
Lemma transcribe_body_raises (tmp_path task : string)
  (language : option string) (output : string) (w w' : World) (e : Exception) :
  transcribe_text L cfg tmp_path task language w = (inl e, w') →
  transcribe_body L cfg tmp_path task language output w = (inl e, w').
Proof. intros H. unfold transcribe_body, bind. by rewrite H. Qed.

(** After a successful engine branch the body is [respond]. *)
Lemma transcribe_body_returns (tmp_path task : string)
  (language : option string) (output : string) (w w' : World)
  (text detected_language : pyval) :
  transcribe_text L cfg tmp_path task language w
  = (inr (text, detected_language), w') →
  transcribe_body L cfg tmp_path task language output w
  = respond output task text detected_language w'.
Proof. intros H. unfold transcribe_body, bind. by rewrite H. Qed.

Lemma respond_txt (task : string) (text detected_language : pyval) (w : World) :
  respond "txt" task text detected_language w
  = (inr (JSONResponse text "text/plain"), w).
Proof. reflexivity. Qed.

Lemma respond_structured (output task s : string) (detected_language : pyval)
  (w : World) :
  output ≠ "txt" →
  respond output task (PyStr s) detected_language w
  = (inr (TranscriptionDict (Str.strip s) detected_language task), w).
Proof.
  intros H. unfold respond.
  by rewrite (proj2 (String.eqb_neq _ _) H).
Qed.

End BodyFacts.

(** ** The temporary audio file *)



(** The outcome and the final world of a handler whose [try] body raises. *)
Lemma transcribe_raises (L : Libs) (cfg : Config) (f : UploadFile)
  (task : string) (language : option string) (output : string)
  (w w' : World) (e : Exception) :
  transcribe_body L cfg (tmp_path_of L f w) task language output (saved L f w)
  = (inl e, w') →
  transcribe L cfg (Some f) task language output w
  = (inl (HTTPException 500 (str e)), without (tmp_path_of L f w) w').
Proof. intros H. rewrite transcribe_spec. by rewrite H. Qed.

Lemma detect_language_raises (L : Libs) (cfg : Config) (f : UploadFile)
  (w w' : World) (e : Exception) :
  detect_body L cfg (tmp_path_of L f w) (saved L f w) = (inl e, w') →
  detect_language L cfg f w
  = (inl (HTTPException 500 (str e)), without (tmp_path_of L f w) w').
Proof. intros H. rewrite detect_language_spec. by rewrite H. Qed.


(** ** The cached model *)

Section ModelFacts.

Variable L : Libs.
Variable cfg : Config.

Lemma transcribe_body_keeps_model (tmp_path task : string)
  (language : option string) (output : string) (w : World) (h : Handle) :
  model w = Some h →
  model (snd (transcribe_body L cfg tmp_path task language output w)) = Some h
  ∧ load_log (snd (transcribe_body L cfg tmp_path task language output w))
    = load_log w.
Proof.
  intros H.
  unfold transcribe_body, transcribe_text, respond, bind, call_fs, call, ret.
  rewrite (get_model_cached L cfg w h H).
  repeat case_match; simplify_eq; simpl; auto.
Qed.

Lemma detect_body_keeps_model (tmp_path : string) (w : World) (h : Handle) :
  model w = Some h →
  model (snd (detect_body L cfg tmp_path w)) = Some h
  ∧ load_log (snd (detect_body L cfg tmp_path w)) = load_log w.
Proof.
  intros H.
  unfold detect_body, bind, call_fs, call, ret.
  rewrite (get_model_cached L cfg w h H).
  repeat case_match; simplify_eq; simpl; auto.
Qed.

Lemma app_keeps_model (req : Request) (w : World) (h : Handle) :
  model w = Some h →
  model (snd (app L cfg req w)) = Some h
  ∧ load_log (snd (app L cfg req w)) = load_log w.
Proof.
  intros H. destruct req as [[f|] task language output | f]; unfold app.
  - rewrite transcribe_spec. simpl.
    exact (transcribe_body_keeps_model (tmp_path_of L f w) task language
             output (saved L f w) h H).
  - by simpl.
  - rewrite detect_language_spec. simpl.
    exact (detect_body_keeps_model (tmp_path_of L f w) (saved L f w) h H).
Qed.

Lemma step_keeps_model (ev : Event) (w : World) (h : Handle) :
  model w = Some h →
  model (step L cfg ev w) = Some h
  ∧ load_log (step L cfg ev w) = load_log w.
Proof.
  intros H. destruct ev as [|req|failure req]; unfold step.
  - unfold startup_event, bind, ret, call.
    destruct (cuda_is_available L);
      [destruct (cuda_get_device_name L) as [e|name]|];
      simpl; try done; by rewrite (get_model_cached L cfg w h H).
  - by apply app_keeps_model.
  - destruct (request_upload req) as [f|] eqn:Hreq.
    + rewrite (serve_interrupted L cfg failure req f w Hreq).
      by destruct failure.
    + destruct req as [[f|] task language output | f]; by simplify_eq.
Qed.

Lemma run_keeps_model (events : list Event) (w : World) (h : Handle) :
  model w = Some h →
  model (run L cfg events w) = Some h
  ∧ load_log (run L cfg events w) = load_log w.
Proof.
  revert w. induction events as [|ev rest IH]; intros w H; [done|].
  destruct (step_keeps_model ev w h H) as [Hm Hl].
  destruct (IH _ Hm) as [Hm' Hl'].
  unfold run in *. simpl. by rewrite Hl' in *.
Qed.

Lemma get_model_times_loaded (n : nat) (w : World) (h : Handle) :
  model w = Some h →
  get_model_times L cfg n w = (replicate n (inr h), w).
Proof.
  intros H. induction n as [|n IH]; [done|].
  simpl. by rewrite (get_model_cached L cfg w h H), IH.
Qed.

Lemma worlds_head (events : list Event) (w : World) :
  ∃ tail, worlds L cfg events w = w :: tail.
Proof. destruct events; simpl; eauto. Qed.

Lemma loadings_cons (w : World) (events : list Event) (w' : World) :
  loadings (w :: worlds L cfg events w')
  = (if negb (is_loaded w) && is_loaded w' then 1 else 0)
    + loadings (worlds L cfg events w').
Proof. by destruct (worlds_head events w') as [tail ->]. Qed.

Lemma loadings_loaded (events : list Event) (w : World) (h : Handle) :
  model w = Some h → loadings (worlds L cfg events w) = 0.
Proof.
  revert w. induction events as [|ev rest IH]; intros w H; [done|].
  change (worlds L cfg (ev :: rest) w)
    with (w :: worlds L cfg rest (step L cfg ev w)).
  rewrite loadings_cons.
  destruct (step_keeps_model ev w h H) as [Hm _].
  rewrite (IH _ Hm). unfold is_loaded. by rewrite H.
Qed.

Lemma loadings_at_most_once (events : list Event) (w : World) :
  (loadings (worlds L cfg events w) ≤ 1)%nat.
Proof.
  revert w. induction events as [|ev rest IH]; intros w; [simpl; lia|].
  change (worlds L cfg (ev :: rest) w)
    with (w :: worlds L cfg rest (step L cfg ev w)).
  rewrite loadings_cons.
  destruct (model (step L cfg ev w)) as [h|] eqn:Hstep.
  - rewrite (loadings_loaded rest _ h Hstep).
    destruct (negb (is_loaded w) && is_loaded (step L cfg ev w)); lia.
  - unfold is_loaded at 2. rewrite Hstep, andb_false_r. apply IH.
Qed.

End ModelFacts.

(** C9. Once the model is loaded, [get_model] returns the cached handle
    and leaves the whole world as it is: no load is executed and the file
    system is not touched.  The same holds for any number of calls in a
    row, and no event of the process (startup or a request) replaces the
    handle or adds a load.  Hence along any run, from any world, the model
    goes from absent to loaded at most once. *)
Theorem get_model_idempotent_once_loaded (L : Libs) (cfg : Config)
  (w : World) (h : Handle) :
  model w = Some h →
  get_model L cfg w = (inr h, w)
  ∧ (∀ n, get_model_times L cfg n w = (replicate n (inr h), w))
  ∧ (∀ events,
        model (run L cfg events w) = Some h
        ∧ load_log (run L cfg events w) = load_log w)
  ∧ (∀ events w0, (loadings (worlds L cfg events w0) ≤ 1)%nat).
Proof.
  intros H. split; [|split; [|split]].
  - by apply get_model_cached.
  - intros n. by apply get_model_times_loaded.
  - intros events. by apply run_keeps_model.
  - intros events w0. apply loadings_at_most_once.
Qed.

(** C8. When the load inside [get_model] raises [e], the call raises [e],
    the global [model] is still absent, and exactly one load has been
    executed by the call (no retry inside).  The next call of [get_model]
    executes a load again, and its outcome is that of this second load. *)
Theorem failed_load_leaves_model_absent (L : Libs) (cfg : Config)
  (w : World) (e : Exception) (fs' : FS) :
  model w = None →
  load L (load_call L cfg) (length (load_log w)) (fs w) = (inl e, fs') →
  let w' := snd (get_model L cfg w) in
  fst (get_model L cfg w) = inl e
  ∧ model w' = None
  ∧ load_log w' = (load_log w ++ [load_call L cfg])%list
  ∧ get_model L cfg w'
    = let r := load L (load_call L cfg) (S (length (load_log w))) fs' in
      (fst r,
       {| model := match fst r with inl _ => None | inr h => Some h end;
          load_log := (load_log w ++ [load_call L cfg; load_call L cfg])%list;
          fs := snd r |}).
Proof.
  intros Hm Hload. rewrite (get_model_absent L cfg w Hm), Hload. simpl.
  repeat split.
  rewrite get_model_absent by done. simpl.
  rewrite length_app, Nat.add_1_r, <- app_assoc. done.
Qed.

(** A run of [n + 1] calls that starts without a model and whose first
    load succeeds: one load, and every call returns its handle. *)
Lemma get_model_times_first_load (L : Libs) (cfg : Config)
  (n : nat) (w : World) (h : Handle) (fs' : FS) :
  model w = None →
  load L (load_call L cfg) (length (load_log w)) (fs w) = (inr h, fs') →
  get_model_times L cfg (S n) w
  = (replicate (S n) (inr h),
     {| model := Some h;
        load_log := (load_log w ++ [load_call L cfg])%list;
        fs := fs' |}).
Proof.
  intros Hm Hload. simpl.
  rewrite (get_model_absent L cfg w Hm), Hload. simpl.
  by rewrite get_model_times_loaded with (h := h).
Qed.

(** ** The fast engine *)

(** The comprehension succeeds exactly on a sequence that yields segments
    up to its end, and then it has taken the text of every one of them,
    in order. *)
Lemma segment_texts_generator_of (segs : list Segment) :
  segment_texts (generator_of segs) = inr (seg_text <$> segs).
Proof. induction segs as [|s rest IH]; simpl; [done|]. by rewrite IH. Qed.

Lemma segment_texts_drains (g : Generator) (texts : list string) :
  segment_texts g = inr texts →
  ∃ segs, g = generator_of segs ∧ texts = seg_text <$> segs.
Proof.
  revert texts. induction g as [|s rest IH|e]; intros texts H; simpl in H.
  - exists []. by simplify_eq.
  - destruct (segment_texts rest) as [e|l]; [done|]. simplify_eq.
    destruct (IH l eq_refl) as [segs [-> ->]]. by exists (s :: segs).
  - done.
Qed.

(** C5. Fast engine: when the engine returns the segment sequence [segs]
    and the metadata record [info], the comprehension takes every segment
    of the sequence, the text is the texts of the segments joined by one
    space in the order of the sequence, the language is that of the
    metadata record, and the structured result carries this text
    (stripped), this language and the task of the request. *)
Theorem fast_engine_joins_segments (L : Libs) (cfg : Config)
  (f : UploadFile) (task : string) (language : option string)
  (output : string) (w w1 : World) (h : Handle)
  (segs : list Segment) (info : TranscriptionInfo) (fs' : FS) :
  ASR_ENGINE cfg = "faster_whisper" →
  get_model L cfg (saved L f w) = (inr h, w1) →
  fw_transcribe L h (tmp_path_of L f w) (fw_kwargs task language) (fs w1)
  = (inr (generator_of segs, info), fs') →
  output ≠ "txt" →
  segment_texts (generator_of segs) = inr (seg_text <$> segs)
  ∧ fst (transcribe_text L cfg (tmp_path_of L f w) task language (saved L f w))
    = inr (PyStr (Str.join " " (seg_text <$> segs)),
           PyStr (info_language info))
  ∧ fst (app L cfg (PostAsr (Some f) task language output) w)
    = inr (TranscriptionDict
             (Str.strip (Str.join " " (seg_text <$> segs)))
             (PyStr (info_language info)) task).
Proof.
  intros Heng Hget Hfw Hout.
  pose proof (transcribe_text_fast L cfg _ _ _ _ _ _ _ _ _ Heng Hget Hfw) as Ht.
  rewrite segment_texts_generator_of in Ht.
  split; [apply segment_texts_generator_of|]. split; [by rewrite Ht|].
  unfold app. rewrite transcribe_spec. simpl.
  rewrite (transcribe_body_returns L cfg _ _ _ _ _ _ _ _ Ht).
  by rewrite respond_structured.
Qed.

(** ** The standard engine *)

(** C1 (as the code has it). Standard engine, structured output: when the
    result of the engine has a string under ["text"] and no ["language"]
    key, the language of the response is the language of the request and
    the text is the stripped text of the engine. *)
Theorem standard_engine_language_fallback (L : Libs) (cfg : Config)
  (f : UploadFile) (task : string) (language : option string)
  (output : string) (w w1 : World) (h : Handle)
  (result : gmap string pyval) (text : string) (fs' : FS) :
  ASR_ENGINE cfg ≠ "faster_whisper" →
  get_model L cfg (saved L f w) = (inr h, w1) →
  ow_transcribe L h (tmp_path_of L f w) (ow_kwargs task language) (fs w1)
  = (inr result, fs') →
  result !! "text" = Some (PyStr text) →
  result !! "language" = None →
  output ≠ "txt" →
  fst (app L cfg (PostAsr (Some f) task language output) w)
  = inr (TranscriptionDict (Str.strip text) (of_optional language) task).
Proof.
  intros Heng Hget How Htext Hlang Hout.
  pose proof (transcribe_text_standard L cfg _ _ _ _ _ _ _ _ Heng Hget How)
    as Ht.
  unfold getitem, dict_get in Ht. rewrite Htext, Hlang in Ht.
  unfold app. rewrite transcribe_spec. simpl.
  rewrite (transcribe_body_returns L cfg _ _ _ _ _ _ _ _ Ht).
  by rewrite respond_structured.
Qed.

(** A ["language"] key that is present is returned with the value it has,
    [None] included. *)
Lemma standard_engine_language_present (L : Libs) (cfg : Config)
  (f : UploadFile) (task : string) (language : option string)
  (output : string) (w w1 : World) (h : Handle)
  (result : gmap string pyval) (text : string) (v : pyval) (fs' : FS) :
  ASR_ENGINE cfg ≠ "faster_whisper" →
  get_model L cfg (saved L f w) = (inr h, w1) →
  ow_transcribe L h (tmp_path_of L f w) (ow_kwargs task language) (fs w1)
  = (inr result, fs') →
  result !! "text" = Some (PyStr text) →
  result !! "language" = Some v →
  output ≠ "txt" →
  fst (app L cfg (PostAsr (Some f) task language output) w)
  = inr (TranscriptionDict (Str.strip text) v task).
Proof.
  intros Heng Hget How Htext Hlang Hout.
  pose proof (transcribe_text_standard L cfg _ _ _ _ _ _ _ _ Heng Hget How)
    as Ht.
  unfold getitem, dict_get in Ht. rewrite Htext, Hlang in Ht.
  unfold app. rewrite transcribe_spec. simpl.
  rewrite (transcribe_body_returns L cfg _ _ _ _ _ _ _ _ Ht).
  by rewrite respond_structured.
Qed.

(** ** The output format *)

(** C10. After a successful engine branch with a text [t], every output
    value other than ["txt"] gives the dictionary with the stripped text,
    the language and the task; ["txt"] gives the [JSONResponse]. *)
Theorem only_txt_is_special_cased (L : Libs) (cfg : Config)
  (f : UploadFile) (task : string) (language : option string)
  (output : string) (w w1 : World) (t : string) (detected_language : pyval) :
  transcribe_text L cfg (tmp_path_of L f w) task language (saved L f w)
  = (inr (PyStr t, detected_language), w1) →
  output ≠ "txt" →
  fst (app L cfg (PostAsr (Some f) task language output) w)
  = inr (TranscriptionDict (Str.strip t) detected_language task)
  ∧ fst (app L cfg (PostAsr (Some f) task language "txt") w)
    = inr (JSONResponse (PyStr t) "text/plain").
Proof.
  intros Ht Hout. unfold app. rewrite !transcribe_spec. simpl.
  rewrite !(transcribe_body_returns L cfg _ _ _ _ _ _ _ _ Ht).
  by rewrite respond_structured, respond_txt.
Qed.

(** ** Language detection on the standard engine *)

Section MaxFacts.

Variable probs : list (string * Q).

Lemma probs_get_elem (k : string) (q : Q) :
  probs_get probs k = Some q → k ∈ (fst <$> probs).
Proof.
  induction probs as [|[k' p'] rest IH]; simpl; [done|].
  destruct (String.eqb k' k) eqn:E.
  - apply String.eqb_eq in E as ->. intros _. apply list_elem_of_here.
  - intros H. apply list_elem_of_further. by apply IH.
Qed.

Lemma elem_probs_get (k : string) :
  k ∈ (fst <$> probs) → is_Some (probs_get probs k).
Proof.
  induction probs as [|[k' p'] rest IH]; simpl.
  - by intros ?%elem_of_nil.
  - intros H. destruct (String.eqb k' k) eqn:E; [by eexists|].
    apply IH. apply elem_of_cons in H as [->|H]; [|done].
    by rewrite String.eqb_refl in E.
Qed.

(** The loop keeps an item of largest key among those seen. *)
Lemma max_loop_spec (rest : list string) (maxitem : string) :
  (∀ k, k ∈ maxitem :: rest → is_Some (probs_get probs k)) →
  ∃ l p,
    max_loop (probs_get probs) maxitem rest = inr l
    ∧ l ∈ maxitem :: rest
    ∧ probs_get probs l = Some p
    ∧ ∀ k q, k ∈ maxitem :: rest → probs_get probs k = Some q → (q <= p)%Q.
Proof.
  revert maxitem. induction rest as [|item rest IH]; intros maxitem Hkeys.
  - destruct (Hkeys maxitem) as [p Hp]; [apply list_elem_of_here|].
    exists maxitem, p. simpl. repeat split; [apply list_elem_of_here|done|].
    intros k q ->%list_elem_of_singleton Hq.
    rewrite Hp in Hq. simplify_eq. apply Qle_refl.
  - destruct (Hkeys maxitem) as [y Hy]; [apply list_elem_of_here|].
    destruct (Hkeys item) as [x Hx];
      [apply list_elem_of_further, list_elem_of_here|].
    simpl. rewrite Hx, Hy. simpl.
    destruct (Qle_bool x y) eqn:Hle; simpl.
    + apply Qle_bool_iff in Hle.
      destruct (IH maxitem) as (l & p & Hloop & Hin & Hp & Hmax).
      { intros k [->|Hk]%elem_of_cons; apply Hkeys.
        - apply list_elem_of_here.
        - by do 2 apply list_elem_of_further. }
      exists l, p. repeat split; [done| |done|].
      * apply elem_of_cons in Hin as [->|Hin];
          [apply list_elem_of_here|by do 2 apply list_elem_of_further].
      * intros k q Hk Hq.
        apply elem_of_cons in Hk as [->|Hk];
          [by apply (Hmax maxitem); [apply list_elem_of_here|]|].
        apply elem_of_cons in Hk as [->|Hk].
        -- rewrite Hx in Hq. simplify_eq.
           apply Qle_trans with y; [done|].
           apply (Hmax maxitem); [apply list_elem_of_here|done].
        -- apply (Hmax k); [by apply list_elem_of_further|done].
    + assert (y < x)%Q as Hlt.
      { apply Qnot_le_lt. intros Hxy. apply Qle_bool_iff in Hxy. congruence. }
      destruct (IH item) as (l & p & Hloop & Hin & Hp & Hmax).
      { intros k Hk. apply Hkeys. by apply list_elem_of_further. }
      exists l, p. repeat split; [done| |done|].
      * by apply list_elem_of_further.
      * intros k q Hk Hq.
        apply elem_of_cons in Hk as [->|Hk]; [|by apply (Hmax k)].
        rewrite Hy in Hq. simplify_eq.
        apply Qle_trans with x; [by apply Qlt_le_weak|].
        apply (Hmax item); [apply list_elem_of_here|done].
Qed.

(** [max(probs, key=probs.get)] followed by [probs[detected_lang]] on a
    distribution that is not empty. *)
Lemma py_max_spec :
  probs ≠ [] →
  ∃ l p,
    py_max (fst <$> probs) (probs_get probs) = inr l
    ∧ probs_getitem probs l = inr p
    ∧ probs_get probs l = Some p
    ∧ ∀ k q, probs_get probs k = Some q → (q <= p)%Q.
Proof.
  intros Hne. destruct probs as [|[k0 p0] rest] eqn:E; [done|].
  rewrite <- E in *. assert (fst <$> probs = k0 :: (fst <$> rest)) as Hkeys
    by by rewrite E.
  rewrite Hkeys. simpl.
  destruct (max_loop_spec (fst <$> rest) k0) as (l & p & Hloop & _ & Hp & Hmax).
  { intros k Hk. apply elem_probs_get. by rewrite Hkeys. }
  exists l, p. unfold probs_getitem. rewrite Hp. repeat split; [done|].
  intros k q Hq. apply (Hmax k); [|done].
  rewrite <- Hkeys. by eapply probs_get_elem.
Qed.

(** What [probs.get] returns is the value of an entry, and with distinct
    keys every entry is what [probs.get] returns for its key. *)
Lemma probs_get_entry (k : string) (q : Q) :
  probs_get probs k = Some q → (k, q) ∈ probs.
Proof.
  induction probs as [|[k' p'] rest IH]; simpl; [done|].
  destruct (String.eqb k' k) eqn:E.
  - apply String.eqb_eq in E as ->. intros [= ->]. apply list_elem_of_here.
  - intros H. apply list_elem_of_further. by apply IH.
Qed.

Lemma entry_probs_get (k : string) (q : Q) :
  NoDup (fst <$> probs) → (k, q) ∈ probs → probs_get probs k = Some q.
Proof.
  induction probs as [|[k' p'] rest IH]; simpl; intros Hnd Hin.
  - by apply elem_of_nil in Hin.
  - apply NoDup_cons in Hnd as [Hk' Hnd].
    apply elem_of_cons in Hin as [[= -> ->]|Hin].
    + by rewrite String.eqb_refl.
    + destruct (String.eqb k' k) eqn:E; [|by apply IH].
      apply String.eqb_eq in E as ->. destruct Hk'.
      apply list_elem_of_fmap. by exists (k, q).
Qed.

End MaxFacts.

(** C6. Standard engine: when the detection pipeline yields a distribution
    (a dictionary, so with distinct keys) that is not empty, the handler
    returns an entry of the distribution, a language together with its
    probability, and no entry of the distribution has a larger
    probability.  Which of several languages of maximal probability is
    returned depends on the iteration order of the distribution: the same
    two tied entries give one winner in one order and the other winner in
    the other order. *)
Theorem standard_detection_returns_a_maximum (L : Libs) (cfg : Config)
  (f : UploadFile) (w w1 : World) (h : Handle) (fs' : FS)
  (audio audio' : Audio L) (mel mel' : Mel L)
  (tokens : pyval) (probs : list (string * Q)) :
  ASR_ENGINE cfg ≠ "faster_whisper" →
  get_model L cfg (saved L f w) = (inr h, w1) →
  load_audio L (tmp_path_of L f w) (fs w1) = (inr audio, fs') →
  pad_or_trim L audio = inr audio' →
  log_mel_spectrogram L audio' = inr mel →
  mel_to L mel (device h) = inr mel' →
  ow_detect_language L h mel' = inr (tokens, probs) →
  probs ≠ [] →
  NoDup (fst <$> probs) →
  (∃ lang p,
      fst (app L cfg (PostDetectLanguage f) w) = inr (DetectionDict lang p)
      ∧ (lang, p) ∈ probs
      ∧ ∀ k q, (k, q) ∈ probs → (q <= p)%Q)
  ∧ ((∀ entry, entry ∈ Script.tie_en_fr ↔ entry ∈ Script.tie_fr_en)
     ∧ fst (app (Script.detect_libs Script.tie_en_fr) Script.standard
              (PostDetectLanguage Script.upload) Script.w0)
       = inr (DetectionDict "en" (1 # 2))
     ∧ fst (app (Script.detect_libs Script.tie_fr_en) Script.standard
              (PostDetectLanguage Script.upload) Script.w0)
       = inr (DetectionDict "fr" (1 # 2))).
Proof.
  intros Heng Hget Haudio Hpad Hmel Hto Hdet Hne Hnd. split.
  - destruct (py_max_spec probs Hne) as (l & p & Hmax & Hitem & Hp & Hle).
    exists l, p. split; [|split].
    + unfold app. rewrite detect_language_spec. simpl.
      unfold detect_body, bind, call_fs, call, ret.
      by rewrite Hget, (engine_is_standard cfg Heng), Haudio, Hpad, Hmel, Hto,
        Hdet, Hmax, Hitem.
    + by apply probs_get_entry.
    + intros k q Hin. apply (Hle k). by apply entry_probs_get.
  - split; [|split; vm_compute; reflexivity].
    intros entry. unfold Script.tie_en_fr, Script.tie_fr_en.
    rewrite !elem_of_cons, !elem_of_nil. tauto.
Qed.

(** ** Concrete runs *)

(** C2. With output ["txt"] the handler returns the text of the engine as
    it is, surrounding whitespace included: on the standard engine with
    the text [" Hi there "], and on the fast engine with the segments
    [" Hello"] and [" world"], where the stripped texts are ["Hi there"]
    and ["Hello  world"]. *)
Theorem txt_output_is_not_stripped :
  fst (app (Script.std_libs Script.hi_there) Script.standard
         (PostAsr (Some Script.upload) "transcribe" None "txt") Script.w0)
  = inr (JSONResponse (PyStr " Hi there ") "text/plain")
  ∧ Str.strip " Hi there " = "Hi there"
  ∧ fst (app (Script.fast_libs [mkSegment " Hello"; mkSegment " world"]
                (mkInfo "en" (99 # 100)))
           Script.faster
           (PostAsr (Some Script.upload) "transcribe" None "txt") Script.w0)
    = inr (JSONResponse (PyStr " Hello  world") "text/plain")
  ∧ Str.strip " Hello  world" = "Hello  world".
Proof. repeat split; vm_compute; reflexivity. Qed.

(** C1 (as stated) fails: the standard engine returns
    [{"text": " Hi there ", "language": None}] for a request with language
    ["fr"]; the response has the language [None], not ["fr"]. *)
Lemma language_none_is_not_replaced :
  fst (app (Script.std_libs Script.hi_there_none) Script.standard
         (PostAsr (Some Script.upload) "transcribe" (Some "fr") "json")
         Script.w0)
  = inr (TranscriptionDict "Hi there" PyNone "transcribe")
  ∧ fst (app (Script.std_libs Script.hi_there_none) Script.standard
           (PostAsr (Some Script.upload) "transcribe" (Some "fr") "json")
           Script.w0)
    ≠ inr (TranscriptionDict "Hi there" (PyStr "fr") "transcribe").
Proof.
  assert (fst (app (Script.std_libs Script.hi_there_none) Script.standard
                 (PostAsr (Some Script.upload) "transcribe" (Some "fr") "json")
                 Script.w0)
          = inr (TranscriptionDict "Hi there" PyNone "transcribe")) as H
    by (vm_compute; reflexivity).
  split; [exact H|]. rewrite H. discriminate.
Qed.

(** ** The theorems at concrete inputs *)

Ltac run_script :=
  first [ reflexivity
        | vm_compute; reflexivity
        | vm_compute; discriminate ].


Lemma get_model_idempotent_once_loaded_witness :
  model Script.w_loaded = Some Script.handle0
  ∧ get_model Script.raising_libs Script.standard Script.w_loaded
    = (inr Script.handle0, Script.w_loaded)
  ∧ (∀ n, get_model_times Script.raising_libs Script.standard n Script.w_loaded
          = (replicate n (inr Script.handle0), Script.w_loaded)).
Proof.
  split; [reflexivity|].
  pose proof (get_model_idempotent_once_loaded Script.raising_libs
                Script.standard Script.w_loaded Script.handle0 eq_refl)
    as (H1 & H2 & _).
  exact (conj H1 H2).
Defined.

Lemma failed_load_leaves_model_absent_witness :
  fst (get_model Script.flaky_libs Script.standard Script.w0)
  = inl Script.boom
  ∧ model (snd (get_model Script.flaky_libs Script.standard Script.w0)) = None
  ∧ fst (get_model Script.flaky_libs Script.standard
           (snd (get_model Script.flaky_libs Script.standard Script.w0)))
    = inr Script.handle0.
Proof.
  pose proof (failed_load_leaves_model_absent Script.flaky_libs Script.standard
                Script.w0 Script.boom ∅ eq_refl eq_refl)
    as (H1 & H2 & _ & H4).
  split; [exact H1|]. split; [exact H2|]. by rewrite H4.
Defined.

Lemma fast_engine_joins_segments_witness :
  fst (app (Script.fast_libs Script.hello_world Script.en_info) Script.faster
         (Script.asr None "json") Script.w0)
  = inr (TranscriptionDict "Hello world" (PyStr "en") "transcribe").
Proof.
  refine (proj2 (proj2
    (fast_engine_joins_segments
       (Script.fast_libs Script.hello_world Script.en_info) Script.faster
       Script.upload "transcribe" None "json" Script.w0
       (snd (get_model (Script.fast_libs Script.hello_world Script.en_info)
               Script.faster
               (saved (Script.fast_libs Script.hello_world Script.en_info)
                  Script.upload Script.w0)))
       Script.handle0 Script.hello_world Script.en_info
       (fs (saved (Script.fast_libs Script.hello_world Script.en_info)
              Script.upload Script.w0))
       _ _ _ _))); run_script.
Defined.

Lemma standard_engine_language_fallback_witness :
  fst (app (Script.std_libs Script.hi_there) Script.standard
         (Script.asr (Some "fr") "json") Script.w0)
  = inr (TranscriptionDict "Hi there" (PyStr "fr") "transcribe").
Proof.
  refine (standard_engine_language_fallback
            (Script.std_libs Script.hi_there) Script.standard
            Script.upload "transcribe" (Some "fr") "json" Script.w0
            (snd (get_model (Script.std_libs Script.hi_there) Script.standard
                    (saved (Script.std_libs Script.hi_there) Script.upload
                       Script.w0)))
            Script.handle0 Script.hi_there " Hi there "
            (fs (saved (Script.std_libs Script.hi_there) Script.upload
                   Script.w0))
            _ _ _ _ _ _); run_script.
Defined.

Lemma only_txt_is_special_cased_witness :
  fst (app (Script.std_libs Script.hi_there) Script.standard
         (Script.asr None "vtt") Script.w0)
  = inr (TranscriptionDict "Hi there" PyNone "transcribe")
  ∧ fst (app (Script.std_libs Script.hi_there) Script.standard
           (Script.asr None "txt") Script.w0)
    = inr (JSONResponse (PyStr " Hi there ") "text/plain").
Proof.
  refine (only_txt_is_special_cased
            (Script.std_libs Script.hi_there) Script.standard
            Script.upload "transcribe" None "vtt" Script.w0
            (snd (transcribe_text (Script.std_libs Script.hi_there)
                    Script.standard
                    (tmp_path_of (Script.std_libs Script.hi_there)
                       Script.upload Script.w0)
                    "transcribe" None
                    (saved (Script.std_libs Script.hi_there) Script.upload
                       Script.w0)))
            " Hi there " PyNone _ _); run_script.
Defined.

Lemma standard_detection_returns_a_maximum_witness :
  fst (app (Script.detect_libs Script.en_fr) Script.standard
         (PostDetectLanguage Script.upload) Script.w0)
  = inr (DetectionDict "en" (9 # 10))
  ∧ fst (app (Script.detect_libs Script.fr_en) Script.standard
           (PostDetectLanguage Script.upload) Script.w0)
    = inr (DetectionDict "en" (9 # 10))
  ∧ ∃ lang p,
      fst (app (Script.detect_libs Script.fr_en) Script.standard
             (PostDetectLanguage Script.upload) Script.w0)
      = inr (DetectionDict lang p)
      ∧ (lang, p) ∈ Script.fr_en
      ∧ ∀ k q, (k, q) ∈ Script.fr_en → (q <= p)%Q.
Proof.
  split; [run_script|]. split; [run_script|].
  refine (proj1
    (standard_detection_returns_a_maximum
       (Script.detect_libs Script.fr_en) Script.standard Script.upload
       Script.w0
       (snd (get_model (Script.detect_libs Script.fr_en) Script.standard
               (saved (Script.detect_libs Script.fr_en) Script.upload
                  Script.w0)))
       Script.handle0
       (fs (saved (Script.detect_libs Script.fr_en) Script.upload Script.w0))
       tt tt tt tt PyNone Script.fr_en _ _ _ _ _ _ _ _ _)); try run_script.
  unfold Script.fr_en. simpl.
  repeat (apply NoDup_cons; split; [rewrite ?elem_of_cons, ?elem_of_nil; intros H; intuition discriminate|]).
  apply NoDup_nil_2.
Defined.

(** * Further properties of the handlers *)

Section LogFacts.

Variable L : Libs.
Variable cfg : Config.

(** After [get_model] the try bodies change neither the model nor the
    log of loads. *)
Lemma transcribe_body_model (tmp_path task : string)
  (language : option string) (output : string) (w : World) :
  model (snd (transcribe_body L cfg tmp_path task language output w))
  = model (snd (get_model L cfg w))
  ∧ load_log (snd (transcribe_body L cfg tmp_path task language output w))
    = load_log (snd (get_model L cfg w)).
Proof.
  unfold transcribe_body, transcribe_text, respond, bind, call_fs, call, ret.
  destruct (get_model L cfg w) as [[e|h] w1]; [done|]. simpl.
  repeat case_match; simplify_eq; simpl; auto.
Qed.

Lemma detect_body_model (tmp_path : string) (w : World) :
  model (snd (detect_body L cfg tmp_path w)) = model (snd (get_model L cfg w))
  ∧ load_log (snd (detect_body L cfg tmp_path w))
    = load_log (snd (get_model L cfg w)).
Proof.
  unfold detect_body, bind, call_fs, call, ret.
  destruct (get_model L cfg w) as [[e|h] w1]; [done|]. simpl.
  repeat case_match; simplify_eq; simpl; auto.
Qed.

(** One call of [get_model] adds at most one load, and only the one of
    the configuration. *)
Lemma get_model_log (w : World) :
  load_log (snd (get_model L cfg w)) = load_log w
  ∨ (model w = None
     ∧ load_log (snd (get_model L cfg w))
       = (load_log w ++ [load_call L cfg])%list).
Proof.
  destruct (model w) as [h|] eqn:H.
  - left. by rewrite (get_model_cached L cfg w h H).
  - right. split; [done|]. by rewrite (get_model_absent L cfg w H).
Qed.

Lemma step_log (ev : Event) (w : World) :
  load_log (step L cfg ev w) = load_log w
  ∨ (model w = None
     ∧ load_log (step L cfg ev w) = (load_log w ++ [load_call L cfg])%list).
Proof.
  destruct ev as [|[[f|] task language output | f] | failure req];
    unfold step, app.
  - unfold startup_event, bind, call, ret.
    pose proof (get_model_log w) as H.
    destruct (cuda_is_available L);
      [destruct (cuda_get_device_name L) as [e|name]|];
      simpl; [by left| |];
      by destruct (get_model L cfg w) as [[e'|h] w1].
  - rewrite transcribe_spec. simpl.
    destruct (transcribe_body_model (tmp_path_of L f w) task language output
                (saved L f w)) as [_ ->].
    exact (get_model_log (saved L f w)).
  - by left.
  - rewrite detect_language_spec. simpl.
    destruct (detect_body_model (tmp_path_of L f w) (saved L f w)) as [_ ->].
    exact (get_model_log (saved L f w)).
  - left. destruct (request_upload req) as [f|] eqn:Hreq.
    + rewrite (serve_interrupted L cfg failure req f w Hreq).
      by destruct failure.
    + destruct req as [[f|] task language output | f]; by simplify_eq.
Qed.

(** When CUDA is available and the device name cannot be read, startup
    raises before it loads anything. *)
Lemma startup_without_device_name (w : World) (e : Exception) :
  cuda_is_available L = true →
  cuda_get_device_name L = inl e →
  startup_event L cfg w = (inl e, w).
Proof.
  intros Hcuda Hname. unfold startup_event, bind, call, ret.
  by rewrite Hcuda, Hname.
Qed.

Lemma run_log_policy (events : list Event) (w : World) :
  Forall (λ c, c = load_call L cfg) (load_log w) →
  Forall (λ c, c = load_call L cfg) (load_log (run L cfg events w)).
Proof.
  revert w. induction events as [|ev rest IH]; intros w H; [done|].
  unfold run. simpl. apply IH.
  destruct (step_log ev w) as [->|[_ ->]]; [done|].
  apply Forall_app. split; [done|]. by constructor.
Qed.

Lemma load_call_policy : load_policy L cfg (load_call L cfg).
Proof.
  unfold load_call, load_policy.
  destruct (String.eqb (ASR_ENGINE cfg) "faster_whisper") eqn:E.
  - apply String.eqb_eq in E.
    destruct (cuda_is_available L); simpl; by repeat split.
  - apply String.eqb_neq in E. by repeat split.
Qed.

End LogFacts.

(** X1. Along every run of the process from its initial state, every
    load that has been executed is the constructor call fixed by the
    configuration: the fast engine is built with [float16] on [cuda] and
    [int8] on [cpu], the standard engine has no compute type, and both
    receive the configured model name and download root. *)
Theorem every_load_follows_the_policy (L : Libs) (cfg : Config)
  (events : list Event) (files : FS) :
  Forall (λ c, c = load_call L cfg ∧ load_policy L cfg c)
    (load_log (run L cfg events (initial_world files))).
Proof.
  pose proof (run_log_policy L cfg events (initial_world files)) as H.
  eapply Forall_impl; [apply H; constructor|].
  intros c ->. split; [done|]. apply load_call_policy.
Qed.

(** X2. When startup can read the name of the device, which it asks
    for when CUDA is available, and its load succeeds with a handle,
    startup returns normally and no later event loads again: after startup
    followed by any events the model is that handle and exactly one load
    has been executed. *)
Theorem startup_preloads_for_every_request (L : Libs) (cfg : Config)
  (files files' : FS) (h : Handle) (events : list Event) :
  (cuda_is_available L = true → ∃ name, cuda_get_device_name L = inr name) →
  load L (load_call L cfg) 0 files = (inr h, files') →
  fst (startup_event L cfg (initial_world files)) = inr tt
  ∧ model (run L cfg (Startup :: events) (initial_world files)) = Some h
  ∧ load_log (run L cfg (Startup :: events) (initial_world files))
    = [load_call L cfg].
Proof.
  intros Hname Hload.
  assert (startup_event L cfg (initial_world files)
          = (inr tt,
             {| model := Some h; load_log := [load_call L cfg];
                fs := files' |}))
    as Hstart.
  { unfold startup_event, bind, call, ret.
    destruct (cuda_is_available L).
    - destruct (Hname eq_refl) as [name ->]. simpl.
      rewrite get_model_absent by done. simpl. by rewrite Hload.
    - simpl. rewrite get_model_absent by done. simpl. by rewrite Hload. }
  split; [by rewrite Hstart|].
  change (run L cfg (Startup :: events) (initial_world files))
    with (run L cfg events (snd (startup_event L cfg (initial_world files)))).
  rewrite Hstart. by apply run_keeps_model.
Qed.

Lemma startup_preloads_for_every_request_witness :
  fst (startup_event Cases.gpu_libs Script.standard (initial_world ∅)) = inr tt
  ∧ model (run Cases.gpu_libs Script.standard
             [Startup; Serve (Script.asr None "json");
              ServeInterrupted (WriteRaises Script.disk_full [])
                (Script.asr None "json");
              Serve (PostDetectLanguage Script.upload)]
             (initial_world ∅))
    = Some Cases.gpu_handle
  ∧ load_log (run Cases.gpu_libs Script.standard
                [Startup; Serve (Script.asr None "json");
                 ServeInterrupted (WriteRaises Script.disk_full [])
                   (Script.asr None "json");
                 Serve (PostDetectLanguage Script.upload)]
                (initial_world ∅))
    = [whisper_load_model "base" "cuda" "/data/whisper"].
Proof.
  refine (startup_preloads_for_every_request
            Cases.gpu_libs Script.standard ∅ ∅ Cases.gpu_handle
            [Serve (Script.asr None "json");
             ServeInterrupted (WriteRaises Script.disk_full [])
               (Script.asr None "json");
             Serve (PostDetectLanguage Script.upload)]
            _ eq_refl).
  intros _. by exists "NVIDIA GeForce RTX 3090".
Defined.

(** X3. A load that raises while a request is served is reported like
    any other failure of the [try] body: the handler raises
    [HTTPException(500)] with the message of the load error, the temporary
    file is removed, the model stays absent and the request has executed
    exactly one load, so that the next request loads again. *)
Theorem load_failure_during_request (L : Libs) (cfg : Config)
  (req : Request) (f : UploadFile) (w : World) (e : Exception) (fs' : FS) :
  request_upload req = Some f →
  model w = None →
  load L (load_call L cfg) (length (load_log w)) (fs (saved L f w))
  = (inl e, fs') →
  fst (app L cfg req w) = inl (HTTPException 500 (str e))
  ∧ model (snd (app L cfg req w)) = None
  ∧ load_log (snd (app L cfg req w)) = (load_log w ++ [load_call L cfg])%list
  ∧ fs (snd (app L cfg req w)) !! tmp_path_of L f w = None.
Proof.
  intros Hreq Hm Hload.
  assert (get_model L cfg (saved L f w)
          = (inl e, {| model := None;
                       load_log := (load_log w ++ [load_call L cfg])%list;
                       fs := fs' |})) as Hget.
  { rewrite get_model_absent by done.
    change (load_log (saved L f w)) with (load_log w). by rewrite Hload. }
  destruct req as [[f'|] task language output | f']; simpl in Hreq;
    simplify_eq; unfold app.
  - rewrite transcribe_spec.
    assert (transcribe_body L cfg (tmp_path_of L f w) task language output
              (saved L f w)
            = (inl e, {| model := None;
                         load_log := (load_log w ++ [load_call L cfg])%list;
                         fs := fs' |})) as ->.
    { unfold transcribe_body, transcribe_text, bind. by rewrite Hget. }
    simpl. repeat split. apply lookup_delete_eq.
  - rewrite detect_language_spec.
    assert (detect_body L cfg (tmp_path_of L f w) (saved L f w)
            = (inl e, {| model := None;
                         load_log := (load_log w ++ [load_call L cfg])%list;
                         fs := fs' |})) as ->.
    { unfold detect_body, bind. by rewrite Hget. }
    simpl. repeat split. apply lookup_delete_eq.
Qed.

Lemma load_failure_during_request_witness :
  fst (app Script.flaky_libs Script.standard (Script.asr None "json") Script.w0)
  = inl (HTTPException 500 "CUDA out of memory")
  ∧ model (snd (app Script.flaky_libs Script.standard (Script.asr None "json")
                  Script.w0)) = None.
Proof.
  pose proof (load_failure_during_request Script.flaky_libs Script.standard
                (Script.asr None "json") Script.upload Script.w0 Script.boom
                (fs (saved Script.flaky_libs Script.upload Script.w0))
                eq_refl eq_refl eq_refl) as (H1 & H2 & _).
  exact (conj H1 H2).
Defined.

(** X4. Detection on the fast engine calls [transcribe] with the path
    only and reads the metadata record; the segment sequence is never
    consumed, so the answer is the same for every sequence, one that would
    raise on its first [next] included. *)
Theorem fast_detection_ignores_segments (L : Libs) (cfg : Config)
  (f : UploadFile) (w w1 : World) (h : Handle)
  (segments : Generator) (info : TranscriptionInfo) (fs' : FS) :
  ASR_ENGINE cfg = "faster_whisper" →
  get_model L cfg (saved L f w) = (inr h, w1) →
  fw_transcribe L h (tmp_path_of L f w) [] (fs w1) = (inr (segments, info), fs') →
  fst (app L cfg (PostDetectLanguage f) w)
  = inr (DetectionDict (info_language info) (info_language_probability info)).
Proof.
  intros Heng Hget Hfw. unfold app. rewrite detect_language_spec. simpl.
  unfold detect_body, bind, call_fs, ret.
  by rewrite Hget, (engine_is_faster cfg Heng), Hfw.
Qed.

(** X5. Standard engine: a result without the key ["text"] makes the
    handler raise [HTTPException(500)] whose detail is the message of the
    [KeyError], for every output value, and the temporary file is
    removed. *)
Theorem standard_result_without_text (L : Libs) (cfg : Config)
  (f : UploadFile) (task : string) (language : option string)
  (output : string) (w w1 : World) (h : Handle)
  (result : gmap string pyval) (fs' : FS) :
  ASR_ENGINE cfg ≠ "faster_whisper" →
  get_model L cfg (saved L f w) = (inr h, w1) →
  ow_transcribe L h (tmp_path_of L f w) (ow_kwargs task language) (fs w1)
  = (inr result, fs') →
  result !! "text" = None →
  fst (app L cfg (PostAsr (Some f) task language output) w)
  = inl (HTTPException 500 "'text'")
  ∧ fs (snd (app L cfg (PostAsr (Some f) task language output) w))
      !! tmp_path_of L f w = None.
Proof.
  intros Heng Hget How Htext.
  pose proof (transcribe_text_standard L cfg _ _ _ _ _ _ _ _ Heng Hget How)
    as Ht.
  unfold getitem in Ht. rewrite Htext in Ht.
  unfold app.
  rewrite (transcribe_raises L cfg f task language output w _
             (KeyError "text") (transcribe_body_raises L cfg _ _ _ _ _ _ _ Ht)).
  split; [reflexivity | apply without_lookup].
Qed.

(** X6. Standard engine: an empty distribution makes [max] raise, and
    the handler answers with [HTTPException(500)]; the temporary file is
    removed. *)
Theorem empty_distribution_is_an_error (L : Libs) (cfg : Config)
  (f : UploadFile) (w w1 : World) (h : Handle) (fs' : FS)
  (audio audio' : Audio L) (mel mel' : Mel L) (tokens : pyval) :
  ASR_ENGINE cfg ≠ "faster_whisper" →
  get_model L cfg (saved L f w) = (inr h, w1) →
  load_audio L (tmp_path_of L f w) (fs w1) = (inr audio, fs') →
  pad_or_trim L audio = inr audio' →
  log_mel_spectrogram L audio' = inr mel →
  mel_to L mel (device h) = inr mel' →
  ow_detect_language L h mel' = inr (tokens, []) →
  (∃ detail,
      fst (app L cfg (PostDetectLanguage f) w) = inl (HTTPException 500 detail))
  ∧ fs (snd (app L cfg (PostDetectLanguage f) w)) !! tmp_path_of L f w = None.
Proof.
  intros Heng Hget Haudio Hpad Hmel Hto Hdet.
  unfold app. rewrite detect_language_spec. simpl.
  split; [|apply lookup_delete_eq].
  unfold detect_body, bind, call_fs, call, ret.
  rewrite Hget, (engine_is_standard cfg Heng), Haudio, Hpad, Hmel, Hto, Hdet.
  simpl. by eexists.
Qed.

Lemma fast_detection_ignores_segments_witness :
  fst (app Cases.broken_segments_libs Script.faster
         (PostDetectLanguage Script.upload) Script.w0)
  = inr (DetectionDict "en" (99 # 100)).
Proof.
  refine (fast_detection_ignores_segments
            Cases.broken_segments_libs Script.faster Script.upload Script.w0
            (snd (get_model Cases.broken_segments_libs Script.faster
                    (saved Cases.broken_segments_libs Script.upload Script.w0)))
            Script.handle0 (Fail Script.boom) Script.en_info
            (fs (saved Cases.broken_segments_libs Script.upload Script.w0))
            _ _ _); run_script.
Defined.

Lemma standard_result_without_text_witness :
  fst (app (Script.std_libs Cases.no_text) Script.standard
         (Script.asr None "txt") Script.w0)
  = inl (HTTPException 500 "'text'").
Proof.
  refine (proj1
    (standard_result_without_text
       (Script.std_libs Cases.no_text) Script.standard Script.upload
       "transcribe" None "txt" Script.w0
       (snd (get_model (Script.std_libs Cases.no_text) Script.standard
               (saved (Script.std_libs Cases.no_text) Script.upload
                  Script.w0)))
       Script.handle0 Cases.no_text
       (fs (saved (Script.std_libs Cases.no_text) Script.upload Script.w0))
       _ _ _ _)); run_script.
Defined.

Lemma empty_distribution_is_an_error_witness :
  ∃ detail,
    fst (app (Script.detect_libs []) Script.standard
           (PostDetectLanguage Script.upload) Script.w0)
    = inl (HTTPException 500 detail).
Proof.
  refine (proj1
    (empty_distribution_is_an_error
       (Script.detect_libs []) Script.standard Script.upload Script.w0
       (snd (get_model (Script.detect_libs []) Script.standard
               (saved (Script.detect_libs []) Script.upload Script.w0)))
       Script.handle0
       (fs (saved (Script.detect_libs []) Script.upload Script.w0))
       tt tt tt tt PyNone _ _ _ _ _ _ _)); run_script.
Defined.

(** ** Which language wins a tie *)

Section FirstMaximum.

Variable probs : list (string * Q).

Lemma max_loop_first (rest pre : list string) (m : string)
  (post : list string) (l : string) :
  (∀ k, k ∈ rest → is_Some (probs_get probs k)) →
  best_so_far probs pre m post →
  max_loop (probs_get probs) m rest = inr l →
  ∃ pre' post',
    (pre ++ m :: post ++ rest)%list = (pre' ++ l :: post')%list
    ∧ best_so_far probs pre' l post'.
Proof.
  revert pre m post.
  induction rest as [|item rest IH]; intros pre m post Hkeys Hinv Hloop.
  - simpl in Hloop. simplify_eq. exists pre, post.
    by rewrite app_nil_r.
  - destruct Hinv as (y & Hy & Hpre & Hpost).
    destruct (Hkeys item) as [x Hx]; [apply list_elem_of_here|].
    simpl in Hloop. rewrite Hx, Hy in Hloop. simpl in Hloop.
    destruct (Qle_bool x y) eqn:Hle; simpl in Hloop.
    + apply Qle_bool_iff in Hle.
      destruct (IH pre m (post ++ [item])%list) as (pre' & post' & Heq & Hinv');
        [| |done|].
      * intros k Hk. apply Hkeys. by apply list_elem_of_further.
      * exists y. repeat split; [done|done|].
        intros k q [Hk|Hk]%elem_of_app Hq; [by eapply Hpost|].
        apply list_elem_of_singleton in Hk as ->.
        rewrite Hx in Hq. by simplify_eq.
      * exists pre', post'. split; [|done].
        rewrite <- Heq. by rewrite <- (app_assoc post [item] rest).
    + assert (y < x)%Q as Hlt.
      { apply Qnot_le_lt. intros Hxy. apply Qle_bool_iff in Hxy. congruence. }
      destruct (IH (pre ++ m :: post)%list item []) as (pre' & post' & Heq & Hinv');
        [| |done|].
      * intros k Hk. apply Hkeys. by apply list_elem_of_further.
      * exists x. repeat split; [done| |by intros k q ?%elem_of_nil].
        intros k q [Hk|Hk]%elem_of_app Hq.
        -- apply Qlt_trans with y; [by eapply Hpre|done].
        -- apply elem_of_cons in Hk as [->|Hk].
           ++ rewrite Hy in Hq. by simplify_eq.
           ++ apply Qle_lt_trans with y; [by eapply Hpost|done].
      * exists pre', post'. split; [|done].
        rewrite <- Heq. simpl. by rewrite <- app_assoc.
Qed.

End FirstMaximum.

(** X7. Among the languages of largest probability, [max] returns the
    one that comes first in the iteration order of the distribution:
    every language before the returned one has a strictly smaller
    probability, and no language after it has a larger one. *)
Theorem first_maximum_wins (probs : list (string * Q)) (l : string) :
  py_max (fst <$> probs) (probs_get probs) = inr l →
  ∃ pre post p,
    fst <$> probs = (pre ++ l :: post)%list
    ∧ probs_get probs l = Some p
    ∧ (∀ k q, k ∈ pre → probs_get probs k = Some q → (q < p)%Q)
    ∧ (∀ k q, k ∈ post → probs_get probs k = Some q → (q <= p)%Q).
Proof.
  intros Hmax.
  destruct (fst <$> probs) as [|first rest] eqn:Hkeys; [done|].
  simpl in Hmax.
  assert (∀ k, k ∈ first :: rest → is_Some (probs_get probs k)) as Hsome.
  { intros k Hk. apply elem_probs_get. by rewrite Hkeys. }
  destruct (Hsome first) as [p0 Hp0]; [apply list_elem_of_here|].
  destruct (max_loop_first probs rest [] first [] l)
    as (pre & post & Heq & p & Hp & Hpre & Hpost); [| |done|].
  - intros k Hk. apply Hsome. by apply list_elem_of_further.
  - exists p0. repeat split; [done| |]; by intros k q ?%elem_of_nil.
  - exists pre, post, p. simpl in Heq. by rewrite Heq.
Qed.

Lemma first_maximum_wins_witness :
  py_max (fst <$> Cases.tied) (probs_get Cases.tied) = inr "en"
  ∧ ∃ pre post p,
      fst <$> Cases.tied = (pre ++ "en" :: post)%list
      ∧ probs_get Cases.tied "en" = Some p
      ∧ (∀ k q, k ∈ pre → probs_get Cases.tied k = Some q → (q < p)%Q)
      ∧ (∀ k q, k ∈ post → probs_get Cases.tied k = Some q → (q <= p)%Q).
Proof.
  split; [reflexivity|].
  exact (first_maximum_wins Cases.tied "en" eq_refl).
Defined.

(** ** What a handler can answer *)

(** X8. The text of a structured transcription response has no
    whitespace at its beginning or at its end, whatever the engine
    returned. *)
Theorem response_text_is_stripped (L : Libs) (cfg : Config)
  (req : Request) (w : World) (resp : Response) (text : string) :
  fst (app L cfg req w) = inr resp →
  response_text resp = Some text →
  Str.starts_with_space text = false ∧ Str.ends_with_space text = false.
Proof.
  intros Happ Htext.
  destruct req as [[f|] task language output | f]; unfold app in Happ.
  - rewrite transcribe_spec in Happ. simpl in Happ.
    unfold transcribe_body, bind in Happ.
    destruct (transcribe_text L cfg _ task language _) as [[e|[t d]] w1];
      simpl in Happ; [done|].
    unfold respond, bind, call, ret, py_strip in Happ.
    destruct (String.eqb output "txt"); simpl in Happ;
      [by simplify_eq|].
    destruct t as [|s|z]; simpl in Happ; simplify_eq.
    simpl in Htext. simplify_eq.
    destruct (StrFacts.strip_spec s) as (_ & H1 & H2). done.
  - done.
  - rewrite detect_language_spec in Happ. simpl in Happ.
    unfold detect_body, bind, call_fs, call, ret in Happ.
    repeat case_match; simplify_eq; simpl in *; simplify_eq.
Qed.

Lemma response_text_is_stripped_witness :
  fst (app (Script.std_libs Script.hi_there) Script.standard
         (Script.asr None "json") Script.w0)
  = inr (TranscriptionDict "Hi there" PyNone "transcribe")
  ∧ Str.starts_with_space "Hi there" = false
  ∧ Str.ends_with_space "Hi there" = false.
Proof.
  split; [run_script|].
  exact (response_text_is_stripped
           (Script.std_libs Script.hi_there) Script.standard
           (Script.asr None "json") Script.w0
           (TranscriptionDict "Hi there" PyNone "transcribe") "Hi there"
           eq_refl eq_refl).
Defined.



(** ** The file system around a request *)

Section FrameFacts.

Variable L : Libs.
Variable cfg : Config.
Hypothesis Hfs : fs_preserving L.

Lemma get_model_fs (w : World) : fs (snd (get_model L cfg w)) = fs w.
Proof.
  destruct Hfs as (Hload & _).
  unfold get_model. destruct (model w); [done|].
  pose proof (Hload (load_call L cfg) (length (load_log w)) (fs w)) as H.
  destruct (load L _ _ _) as [[e|h] fs']; simpl in *; by subst.
Qed.

Lemma transcribe_body_fs (tmp_path task : string)
  (language : option string) (output : string) (w : World) :
  fs (snd (transcribe_body L cfg tmp_path task language output w)) = fs w.
Proof.
  destruct Hfs as (_ & Hfw & How & _).
  pose proof (get_model_fs w) as Hget.
  unfold transcribe_body, transcribe_text, respond, bind, call_fs, call, ret.
  destruct (get_model L cfg w) as [[e|h] w1]; simpl in *; [done|].
  destruct (String.eqb (ASR_ENGINE cfg) "faster_whisper").
  - pose proof (Hfw h tmp_path (fw_kwargs task language) (fs w1)) as H.
    destruct (fw_transcribe L _ _ _ _) as [[e|[g info]] fs'];
      simpl in *; subst; [done|].
    repeat case_match; simplify_eq; simpl; done.
  - pose proof (How h tmp_path (ow_kwargs task language) (fs w1)) as H.
    destruct (ow_transcribe L _ _ _ _) as [[e|result] fs'];
      simpl in *; subst; [done|].
    repeat case_match; simplify_eq; simpl; done.
Qed.

Lemma detect_body_fs (tmp_path : string) (w : World) :
  fs (snd (detect_body L cfg tmp_path w)) = fs w.
Proof.
  destruct Hfs as (_ & Hfw & _ & Haudio).
  pose proof (get_model_fs w) as Hget.
  unfold detect_body, bind, call_fs, call, ret.
  destruct (get_model L cfg w) as [[e|h] w1]; simpl in *; [done|].
  destruct (String.eqb (ASR_ENGINE cfg) "faster_whisper").
  - pose proof (Hfw h tmp_path [] (fs w1)) as H.
    destruct (fw_transcribe L _ _ _ _) as [[e|[g info]] fs'];
      simpl in *; by subst.
  - pose proof (Haudio tmp_path (fs w1)) as H.
    destruct (load_audio L _ _) as [[e|audio] fs'];
      simpl in *; subst; [done|].
    repeat case_match; simplify_eq; simpl; done.
Qed.

End FrameFacts.

(** X10. When the libraries leave the file system alone, a request
    that carries a file leaves every path other than that of its temporary
    file as it was.  At that path there is nothing after a request whose
    upload has been saved; after a request whose upload could not be read
    or written there is the file with what has reached it, and a request
    that could not create the file has changed nothing.  When the upload
    has been saved and the path was free before the request, the file
    system after the request is the one before it. *)
Theorem request_leaves_other_files (L : Libs) (cfg : Config)
  (failure : option SaveFailure) (req : Request) (f : UploadFile)
  (w : World) :
  fs_preserving L →
  request_upload req = Some f →
  (∀ path,
      path ≠ tmp_path_of L f w →
      fs (snd (serve L cfg failure req w)) !! path = fs w !! path)
  ∧ fs (snd (serve L cfg failure req w)) !! tmp_path_of L f w
    = match failure with
      | None => None
      | Some (CreateRaises _) => fs w !! tmp_path_of L f w
      | Some (ReadRaises _) => Some []
      | Some (WriteRaises _ written) => Some written
      end
  ∧ (fs w !! tmp_path_of L f w = None →
     fs (snd (app L cfg req w)) = fs w).
Proof.
  intros Hfs Hreq.
  assert (fs (snd (app L cfg req w)) = delete (tmp_path_of L f w) (fs w)) as H.
  { destruct req as [[f'|] task language output | f']; simpl in Hreq;
      simplify_eq; unfold app.
    - rewrite transcribe_spec. simpl.
      rewrite (transcribe_body_fs L cfg Hfs). simpl.
      apply delete_insert_eq.
    - rewrite detect_language_spec. simpl.
      rewrite (detect_body_fs L cfg Hfs). simpl.
      apply delete_insert_eq. }
  split; [|split].
  - intros path Hpath. destruct failure as [step|].
    + rewrite (serve_interrupted L cfg step req f w Hreq).
      destruct step; simpl; [done| |]; by rewrite lookup_insert_ne.
    + rewrite <- app_serve, H. by rewrite lookup_delete_ne.
  - destruct failure as [step|].
    + rewrite (serve_interrupted L cfg step req f w Hreq).
      destruct step; simpl; [done| |]; apply lookup_insert_eq.
    + rewrite <- app_serve, H. apply lookup_delete_eq.
  - intros Hfree. rewrite H. by apply delete_id.
Qed.

Lemma request_leaves_other_files_witness :
  fs_preserving (Script.std_libs Script.hi_there)
  ∧ fs (snd (app (Script.std_libs Script.hi_there) Script.standard
               (Script.asr None "json") (initial_world Cases.one_file)))
    = Cases.one_file
  ∧ fs (snd (serve (Script.std_libs Script.hi_there) Script.standard
               (Some (WriteRaises Script.disk_full []))
               (Script.asr None "json") (initial_world Cases.one_file)))
      !! tmp_path_of (Script.std_libs Script.hi_there) Script.upload
           (initial_world Cases.one_file)
    = Some [].
Proof.
  assert (fs_preserving (Script.std_libs Script.hi_there)) as Hfs
    by (repeat split).
  split; [exact Hfs|]. split.
  - apply (request_leaves_other_files (Script.std_libs Script.hi_there)
             Script.standard None (Script.asr None "json") Script.upload
             (initial_world Cases.one_file) Hfs eq_refl).
    vm_compute. reflexivity.
  - exact (proj1 (proj2
      (request_leaves_other_files (Script.std_libs Script.hi_there)
         Script.standard (Some (WriteRaises Script.disk_full []))
         (Script.asr None "json") Script.upload
         (initial_world Cases.one_file) Hfs eq_refl))).
Defined.

(** * Properties of the string operations *)

Module TextFacts.

Import Text.

Lemma startswith_nil (s : string) : startswith EmptyString s = true.
Proof. by destruct s. Qed.

Lemma startswith_app (p t : string) : startswith p (p +:+ t) = true.
Proof.
  induction p as [|a p IH]; [apply startswith_nil|].
  rewrite StrFacts.append_cons. simpl. by rewrite Ascii.eqb_refl.
Qed.

Lemma startswith_split (p s : string) :
  startswith p s = true → s = p +:+ drop (String.length p) s.
Proof.
  revert s. induction p as [|a p IH]; intros s H; simpl; [done|].
  destruct s as [|b s]; simpl in H; [done|].
  destruct (Ascii.eqb a b) eqn:E; [|done].
  apply Ascii.eqb_eq in E as ->. rewrite StrFacts.append_cons. simpl.
  f_equal. by apply IH.
Qed.

(** A prefix of [b +:+ t] that is not longer than [b] is a prefix of
    [b]. *)
Lemma startswith_app_short (p b t : string) :
  startswith p (b +:+ t) = true →
  (String.length p ≤ String.length b)%nat →
  startswith p b = true.
Proof.
  revert b. induction p as [|a p IH]; intros b H Hlen; [apply startswith_nil|].
  destruct b as [|c b]; simpl in Hlen; [lia|].
  rewrite StrFacts.append_cons in H.
  simpl in *. destruct (Ascii.eqb a c); [|done]. apply IH; [done|lia].
Qed.

Lemma drop_app_length (p t : string) : drop (String.length p) (p +:+ t) = t.
Proof.
  induction p as [|a p IH]; [by destruct t|].
  by rewrite StrFacts.append_cons.
Qed.

Lemma drop_length (n : nat) (s : string) :
  (String.length (drop n s) ≤ String.length s)%nat.
Proof.
  revert s. induction n as [|n IH]; intros s; simpl; [lia|].
  destruct s as [|c s]; simpl; [lia|]. specialize (IH s). lia.
Qed.

Lemma drop_length_lt (n : nat) (c : Ascii.ascii) (s : string) :
  (String.length (drop (S n) (String c s)) < String.length (String c s))%nat.
Proof. simpl. pose proof (drop_length n s). lia. Qed.

Lemma drop_step (k : nat) (s : string) :
  (k < String.length s)%nat → ∃ c, drop k s = String c (drop (S k) s).
Proof.
  revert s. induction k as [|k IH]; intros s Hk.
  - destruct s as [|c s]; simpl in Hk; [lia|]. by exists c.
  - destruct s as [|c s]; simpl in Hk; [lia|].
    destruct (IH s) as [c' Hc']; [lia|]. by exists c'.
Qed.

Lemma drop_all (s : string) : drop (String.length s) s = EmptyString.
Proof. induction s as [|c s IH]; simpl; done. Qed.

Lemma length_drop (k : nat) (s : string) :
  String.length (drop k s) = (String.length s - k)%nat.
Proof.
  revert s. induction k as [|k IH]; intros s; simpl; [lia|].
  destruct s as [|c s]; simpl; [done|apply IH].
Qed.

(** ** [in] *)

Lemma contains_startswith (sub s : string) :
  startswith sub s = true → contains sub s = true.
Proof. intros H. destruct s; simpl; by rewrite H. Qed.

Lemma contains_cons (sub : string) (c : Ascii.ascii) (s : string) :
  contains sub s = true → contains sub (String c s) = true.
Proof. intros H. simpl. rewrite H. apply orb_true_r. Qed.

Lemma contains_drop (sub : string) (n : nat) (s : string) :
  contains sub (drop n s) = true → contains sub s = true.
Proof.
  revert s. induction n as [|n IH]; intros s H; simpl in H; [done|].
  destruct s as [|c s]; [done|]. apply contains_cons. by apply IH.
Qed.

Lemma contains_app_r (sub t s : string) :
  contains sub s = true → contains sub (t +:+ s) = true.
Proof.
  intros H. induction t as [|c t IH]; [done|].
  rewrite StrFacts.append_cons. by apply contains_cons.
Qed.

(** ** [replace] *)

Section Replace.

Variables old new : string.

Lemma replace_from_drop (k : nat) (s : string) :
  replace_from old new k s = replace_from old new 0 (drop k s).
Proof.
  revert s. induction k as [|k IH]; intros s; [done|].
  destruct s as [|c s]; simpl; [done|apply IH].
Qed.

Lemma replace_nil : replace old new EmptyString = EmptyString.
Proof. reflexivity. Qed.

(** At an occurrence: [new], then the rest after the occurrence. *)
Lemma replace_hit (s : string) :
  old ≠ EmptyString →
  startswith old s = true →
  replace old new s = new +:+ replace old new (drop (String.length old) s).
Proof.
  intros Hold H. unfold replace.
  destruct s as [|c s].
  - destruct old; [done|simpl in H; done].
  - simpl. rewrite H. f_equal. rewrite replace_from_drop.
    destruct old as [|a o]; [done|]. simpl. by rewrite Nat.sub_0_r.
Qed.

(** Elsewhere: the character is kept. *)
Lemma replace_miss (c : Ascii.ascii) (s : string) :
  startswith old (String c s) = false →
  replace old new (String c s) = String c (replace old new s).
Proof. intros H. unfold replace. simpl in *. by rewrite H. Qed.

(** Without an occurrence nothing changes. *)
Lemma replace_absent (s : string) :
  contains old s = false → replace old new s = s.
Proof.
  induction s as [|c s IH]; intros H; [done|].
  simpl in H. apply orb_false_iff in H as [H1 H2].
  rewrite replace_miss by done. f_equal. by apply IH.
Qed.

(** With an occurrence, and [old] inside [new], the result again has an
    occurrence of [new]. *)
Lemma replace_present (s : string) :
  old ≠ EmptyString →
  contains old s = true → contains new (replace old new s) = true.
Proof.
  intros Hold. induction s as [|c s IH]; intros H.
  - simpl in H. rewrite orb_false_r in H. by destruct old.
  - destruct (startswith old (String c s)) eqn:Hs.
    + rewrite replace_hit by done.
      apply contains_startswith, startswith_app.
    + rewrite replace_miss by done. apply contains_cons, IH.
      simpl in H. simpl in Hs. rewrite Hs in H. done.
Qed.

Lemma length_append (a b : string) :
  String.length (a +:+ b) = (String.length a + String.length b)%nat.
Proof.
  induction a as [|c a IH]; [done|].
  rewrite StrFacts.append_cons. simpl. by rewrite IH.
Qed.

(** A replacement by a string that is not shorter does not shorten. *)
Lemma replace_length_ge (n : nat) (s : string) :
  old ≠ EmptyString →
  (String.length old ≤ String.length new)%nat →
  (String.length s ≤ n)%nat →
  (String.length s ≤ String.length (replace old new s))%nat.
Proof.
  intros Hold Hlen. revert s. induction n as [|n IH]; intros s Hn.
  - destruct s; simpl in *; lia.
  - destruct s as [|c s]; [simpl; lia|].
    destruct (startswith old (String c s)) eqn:Hs.
    + rewrite replace_hit by done. rewrite length_append.
      pose proof (startswith_split _ _ Hs) as Hsplit.
      assert (String.length (String c s)
              = (String.length old
                 + String.length (drop (String.length old) (String c s)))%nat)
        as Hl by (rewrite Hsplit at 1; apply length_append).
      assert (String.length (drop (String.length old) (String c s)) ≤ n)%nat
        as Hrest.
      { destruct old as [|a o]; [done|]. simpl in *. lia. }
      specialize (IH _ Hrest). lia.
    + rewrite replace_miss by done. simpl in *.
      specialize (IH s). lia.
Qed.

(** A replacement by a longer string lengthens a text that has an
    occurrence. *)
Lemma replace_length_gt (s : string) :
  old ≠ EmptyString →
  (String.length old < String.length new)%nat →
  contains old s = true →
  (String.length s < String.length (replace old new s))%nat.
Proof.
  intros Hold Hlen. induction s as [|c s IH]; intros H.
  - simpl in H. rewrite orb_false_r in H. by destruct old.
  - destruct (startswith old (String c s)) eqn:Hs.
    + rewrite replace_hit by done. rewrite length_append.
      pose proof (startswith_split _ _ Hs) as Hsplit.
      assert (String.length (String c s)
              = (String.length old
                 + String.length (drop (String.length old) (String c s)))%nat)
        as Hl by (rewrite Hsplit at 1; apply length_append).
      pose proof (replace_length_ge
                    (String.length (drop (String.length old) (String c s)))
                    (drop (String.length old) (String c s)) Hold) as Hge.
      lia.
    + rewrite replace_miss by done.
      simpl in H. simpl in Hs. rewrite Hs in H. simpl in *.
      specialize (IH H). lia.
Qed.

End Replace.

Lemma startswith_app_l (p b t : string) :
  startswith p b = true → startswith p (b +:+ t) = true.
Proof.
  revert b. induction p as [|a p IH]; intros b H; [apply startswith_nil|].
  destruct b as [|c b]; [done|]. rewrite StrFacts.append_cons.
  simpl in *. destruct (Ascii.eqb a c); [by apply IH|done].
Qed.

Lemma contains_app_l (sub b t : string) :
  contains sub b = true → contains sub (b +:+ t) = true.
Proof.
  induction b as [|c b IH]; intros H.
  - simpl in H. rewrite orb_false_r in H.
    destruct sub; [|done]. apply contains_startswith, startswith_nil.
  - simpl in H. apply orb_true_iff in H as [H|H].
    + by apply contains_startswith, startswith_app_l.
    + rewrite StrFacts.append_cons. by apply contains_cons, IH.
Qed.

(** [in] is transitive. *)
Lemma contains_trans (a b s : string) :
  contains a b = true → contains b s = true → contains a s = true.
Proof.
  intros Hab. induction s as [|c s IH]; intros H.
  - simpl in H. rewrite orb_false_r in H.
    destruct b; [done|done].
  - simpl in H. apply orb_true_iff in H as [H|H].
    + rewrite (startswith_split _ _ H). by apply contains_app_l.
    + by apply contains_cons, IH.
Qed.

(** ** Replacing back *)

Section RoundTrip.

Variables A B : string.
Hypothesis A_not_empty : A ≠ EmptyString.
Hypothesis B_not_empty : B ≠ EmptyString.

(** [B] has no border: no proper suffix of [B] that is not empty is a
    prefix of [B]. *)
Hypothesis B_no_border :
  ∀ k, (1 ≤ k < String.length B)%nat → startswith (drop k B) B = false.

(** Where the result of [A → B] continues [B] from position [k], either
    the argument does so too, or an occurrence of [A] starts there and
    [k] is zero. *)
Lemma replaced_prefix (s : string) (k : nat) :
  (k < String.length B)%nat →
  startswith (drop k B) (replace A B s) = true →
  startswith (drop k B) s = true ∨ (k = 0%nat ∧ startswith A s = true).
Proof.
  revert k. induction s as [|c s IH]; intros k Hk H.
  - left. by rewrite replace_nil in H.
  - destruct (startswith A (String c s)) eqn:Hs.
    + rewrite replace_hit in H by done.
      apply startswith_app_short in H;
        [|rewrite length_drop; lia].
      destruct k as [|k]; [by right|].
      rewrite B_no_border in H by lia. done.
    + rewrite replace_miss in H by done.
      destruct (drop_step k B Hk) as [b Hb]. rewrite Hb in *.
      cbn [startswith] in H. destruct (Ascii.eqb b c) eqn:Hbc; [|done].
      destruct (decide (S k < String.length B)%nat) as [Hlt|Hge].
      * destruct (IH (S k) Hlt H) as [H'|[? _]]; [|done].
        left. cbn [startswith]. by rewrite Hbc.
      * left. cbn [startswith]. rewrite Hbc.
        assert (S k = String.length B) as -> by lia.
        rewrite drop_all. apply startswith_nil.
Qed.

Lemma replace_back_bounded (n : nat) (s : string) :
  (String.length s ≤ n)%nat →
  contains B s = false →
  replace B A (replace A B s) = s.
Proof.
  revert s. induction n as [|n IH]; intros s Hn Hs.
  - destruct s; [done|simpl in Hn; lia].
  - destruct s as [|c s]; [done|].
    destruct (startswith A (String c s)) eqn:Hhit.
    + rewrite (replace_hit A B) by done.
      rewrite (replace_hit B A) by (done || apply startswith_app).
      rewrite drop_app_length.
      destruct A as [|a A'] eqn:HA; [done|]. rewrite <- HA in *.
      rewrite IH.
      * symmetry. by apply startswith_split.
      * rewrite HA. pose proof (drop_length_lt (String.length A') c s).
        simpl in *. lia.
      * destruct (contains B (drop (String.length A) (String c s))) eqn:E;
          [|done].
        apply contains_drop in E. congruence.
    + rewrite (replace_miss A B) by done.
      assert (startswith B (String c (replace A B s)) = false) as Hmiss.
      { destruct (startswith B (String c (replace A B s))) eqn:E; [|done].
        rewrite <- (replace_miss A B) in E by done.
        destruct (replaced_prefix (String c s) 0) as [H|[_ H]].
        - destruct B; [done|simpl; lia].
        - exact E.
        - simpl in H. apply contains_startswith in H. congruence.
        - congruence. }
      rewrite (replace_miss B A) by done. f_equal.
      apply IH; [simpl in Hn; lia|].
      simpl in Hs. by apply orb_false_iff in Hs as [_ ?].
Qed.

Lemma replace_back (s : string) :
  contains B s = false → replace B A (replace A B s) = s.
Proof. by apply (replace_back_bounded (String.length s)). Qed.

End RoundTrip.

Lemma no_border_spec (s : string) :
  no_border s = true →
  ∀ k, (1 ≤ k < String.length s)%nat → startswith (drop k s) s = false.
Proof.
  intros H k Hk. unfold no_border in H.
  rewrite forallb_forall in H. apply negb_true_iff, H, in_seq. lia.
Qed.

End TextFacts.

(** * Properties of the start script *)

Module OrchestrationFacts.

Import Orchestration.

(** ** The compose commands *)

Ltac find_elem :=
  vm_compute;
  repeat first [ apply list_elem_of_here | apply list_elem_of_further ].

(** X11. For every profile [argparse] accepts and every environment,
    each [down] command of [stop_existing_containers] names the same
    compose files as the [up] command of [start_services], and the [up]
    command with [up -d] replaced by [down] is one of the commands
    [stop_existing_containers] runs. *)
Theorem stop_uses_the_files_of_start
  (profile : string) (environment : option string) :
  profile ∈ profile_choices →
  (∀ c, c ∈ stop_commands environment →
        file_args c = file_args (up_cmd (Some profile) environment))
  ∧ down_of (up_cmd (Some profile) environment) ∈ stop_commands environment.
Proof.
  intros Hprofile.
  unfold stop_commands, up_cmd, down_profile_cmd, down_cmd, extend_files,
    profiles_to_clean.
  destruct (env_is environment "private"), (env_is environment "public");
    unfold profile_choices in Hprofile;
    repeat (apply elem_of_cons in Hprofile as [->|Hprofile]);
    try (by apply elem_of_nil in Hprofile);
    (split;
     [ intros c Hc; simpl in Hc;
       repeat (apply elem_of_cons in Hc as [->|Hc]);
       try (by apply elem_of_nil in Hc); reflexivity
     | find_elem ]).
Qed.

Lemma stop_uses_the_files_of_start_witness :
  file_args (down_cmd (Some "public"))
  = file_args (up_cmd (Some "gpu-nvidia") (Some "public"))
  ∧ down_of (up_cmd (Some "gpu-nvidia") (Some "public"))
    ∈ stop_commands (Some "public").
Proof.
  destruct (stop_uses_the_files_of_start "gpu-nvidia" (Some "public"))
    as [H1 H2]; [find_elem|].
  split; [|exact H2]. apply H1. find_elem.
Defined.

(** ** Running commands *)

Section CommandFacts.

Variable os : OS.

Lemma run_command_spec (cmd : list string) (h : Host) :
  run_command os cmd h
  = (match fst (spawn os cmd (cwd h) (tree h)) with
     | NotStarted e => inl (OtherError e)
     | Exited rc _ =>
         if (rc =? 0)%Z then inr tt else inl (CalledProcessError rc cmd)
     end,
     {| cwd := cwd h; tree := snd (spawn os cmd (cwd h) (tree h));
        ran := (ran h ++ [(cwd h, cmd)])%list |}).
Proof.
  unfold run_command, sh_bind, subprocess_run, sh_ret.
  destruct (spawn os cmd (cwd h) (tree h)) as [[rc out|e] t']; simpl; [|done].
  by destruct (rc =? 0)%Z.
Qed.

(** A guarded command is logged, leaves the directory alone, and lets
    only the failure to start the program through. *)
Lemma except_called_run_command (cmd : list string) (h : Host) :
  (fst (except_called (run_command os cmd) h) = inr tt
   ∨ ∃ e, fst (except_called (run_command os cmd) h) = inl (OtherError e)
          ∧ fst (spawn os cmd (cwd h) (tree h)) = NotStarted e)
  ∧ cwd (snd (except_called (run_command os cmd) h)) = cwd h
  ∧ ran (snd (except_called (run_command os cmd) h))
    = (ran h ++ [(cwd h, cmd)])%list.
Proof.
  unfold except_called. rewrite run_command_spec.
  destruct (fst (spawn os cmd (cwd h) (tree h))) as [rc out|e]; simpl.
  - destruct (rc =? 0)%Z; simpl; auto.
  - split; [right; by exists e|done].
Qed.

(** A sequence of guarded commands: all of them run when it returns. *)
Lemma guarded_sequence (cmds : list (list string)) (h : Host) :
  let r := for_each cmds (fun c => except_called (run_command os c)) h in
  cwd (snd r) = cwd h
  ∧ (fst r = inr tt → ran (snd r) = (ran h ++ run_in (cwd h) cmds)%list)
  ∧ (∀ err, fst r = inl err →
       ∃ e done_, err = OtherError e
                  ∧ ran (snd r) = (ran h ++ run_in (cwd h) done_)%list
                  ∧ done_ `prefix_of` cmds
                  ∧ (length done_ ≤ length cmds)%nat).
Proof.
  revert h. induction cmds as [|c rest IH]; intros h; simpl.
  - unfold sh_ret. simpl. split; [done|]. split; [|done].
    intros _. by rewrite app_nil_r.
  - unfold sh_bind.
    destruct (except_called_run_command c h) as (Hres & Hcwd & Hran).
    destruct (except_called (run_command os c) h) as [[err|[]] h1] eqn:E;
      simpl in *.
    + split; [done|]. split; [done|].
      intros err' Herr. simplify_eq.
      destruct Hres as [?|(e & He & _)]; [done|]. simplify_eq.
      exists e, [c]. repeat split; [done| |simpl; lia].
      by exists rest.
    + destruct (IH h1) as (Hcwd' & Hok & Hfail). rewrite Hcwd in *.
      split; [done|]. split.
      * intros Hr. rewrite (Hok Hr), Hran. by rewrite <- app_assoc.
      * intros err Herr.
        destruct (Hfail err Herr) as (e & done_ & -> & Hlog & Hpre & Hlen).
        exists e, (c :: done_). repeat split; [| |simpl; lia].
        -- rewrite Hlog, Hran. by rewrite <- app_assoc.
        -- by apply prefix_cons.
Qed.

End CommandFacts.

(** ** The log only grows *)

Section GrowFacts.

Variable os : OS.

Lemma grows_ret {A} (a : A) : grows (sh_ret a).
Proof. intros h. exists []. simpl. by rewrite app_nil_r. Qed.

Lemma grows_bind {A B} (m : Sh A) (k : A → Sh B) :
  grows m → (∀ a, grows (k a)) → grows (sh_bind m k).
Proof.
  intros Hm Hk h. unfold sh_bind. destruct (Hm h) as [l Hl].
  destruct (m h) as [[e|a] h1]; simpl in *; [by exists l|].
  destruct (Hk a h1) as [l' Hl']. exists (l ++ l')%list.
  by rewrite Hl', Hl, app_assoc.
Qed.

Lemma grows_subprocess_run (cmd : list string) (check : bool) :
  grows (subprocess_run os cmd check).
Proof.
  intros h. exists [(cwd h, cmd)]. unfold subprocess_run.
  destruct (spawn os cmd (cwd h) (tree h)) as [[rc out|e] t]; simpl; [|done].
  by destruct (check && negb (rc =? 0)%Z).
Qed.

Lemma grows_run_command (cmd : list string) : grows (run_command os cmd).
Proof.
  apply grows_bind; [apply grows_subprocess_run|]. intros. apply grows_ret.
Qed.

Lemma grows_except_called (m : Sh unit) : grows m → grows (except_called m).
Proof.
  intros Hm h. unfold except_called. destruct (Hm h) as [l Hl].
  exists l. by destruct (m h) as [[[rc c|e]|[]] h1].
Qed.

Lemma grows_except_exception {A} (m handler : Sh A) :
  grows m → grows handler → grows (except_exception m handler).
Proof.
  intros Hm Hh h. unfold except_exception. destruct (Hm h) as [l Hl].
  destruct (m h) as [[e|a] h1]; simpl in *; [|by exists l].
  destruct (Hh h1) as [l' Hl']. exists (l ++ l')%list.
  by rewrite Hl', Hl, app_assoc.
Qed.

Lemma grows_for_each {A} (l : list A) (body : A → Sh unit) :
  (∀ x, grows (body x)) → grows (for_each l body).
Proof.
  intros Hbody. induction l as [|x rest IH]; simpl.
  - apply grows_ret.
  - apply grows_bind; [apply Hbody|]. intros _. apply IH.
Qed.

Lemma grows_os_exists (p : list string) : grows (os_exists p).
Proof. intros h. exists []. simpl. by rewrite app_nil_r. Qed.

Lemma grows_os_chdir (d : string) : grows (os_chdir d).
Proof.
  intros h. exists []. unfold os_chdir. rewrite app_nil_r.
  destruct (String.eqb d ".."); [done|].
  by destruct (tree h !! _) as [[|c]|].
Qed.

Lemma grows_read_text (p : list string) : grows (read_text p).
Proof.
  intros h. exists []. unfold read_text. rewrite app_nil_r.
  by destruct (tree h !! _) as [[|c]|].
Qed.

Lemma grows_write_text (p : list string) (content : string) :
  grows (write_text p content).
Proof.
  intros h. exists []. unfold write_text. rewrite app_nil_r.
  destruct (tree h !! _) as [[|c]|]; [done| |];
    by destruct (parent_is_dir _ _).
Qed.

Lemma grows_start_if_created (line : string) :
  grows (start_if_created os line).
Proof.
  unfold start_if_created. destruct (n8n_created line); [|apply grows_ret].
  apply grows_bind; [apply grows_subprocess_run|]. intros. apply grows_ret.
Qed.

Lemma grows_start_n8n_manually : grows (start_n8n_manually os).
Proof.
  apply grows_bind; [apply grows_subprocess_run|]. intros [rc out].
  apply grows_for_each, grows_start_if_created.
Qed.

(** [try: ... except Exception: print(...)] returns. *)
Lemma except_exception_returns (m : Sh unit) (h : Host) :
  fst (except_exception m (sh_ret tt) h) = inr tt.
Proof.
  unfold except_exception. by destruct (m h) as [[e|[]] h1].
Qed.

End GrowFacts.

(** ** [stop_existing_containers] *)

Lemma stop_is_a_guarded_sequence (os : OS)
  (profile environment : option string) (h : Host) :
  stop_existing_containers os profile environment h
  = for_each (stop_commands environment)
      (fun c => except_called (run_command os c)) h.
Proof.
  unfold stop_existing_containers, stop_commands, profiles_to_clean.
  simpl. unfold sh_bind, sh_ret.
  repeat match goal with
         | |- context [except_called ?m ?h] =>
             destruct (except_called m h) as [[?|[]] ?]; simpl; try done
         end.
Qed.


(** ** [start_services] *)

(** X13. [start_services] first hands the [up] command to [docker].  It
    returns normally whatever the exit status of that command is: it
    raises only when the program cannot be started.  With exit status
    zero nothing else is run. *)
Theorem start_services_survives_a_failed_up (os : OS)
  (profile environment : option string) (h : Host) :
  (∃ rest,
      ran (snd (start_services os profile environment h))
      = (ran h ++ (cwd h, up_cmd profile environment) :: rest)%list)
  ∧ (∀ err,
        fst (start_services os profile environment h) = inl err →
        ∃ e, err = OtherError e
             ∧ fst (spawn os (up_cmd profile environment) (cwd h) (tree h))
               = NotStarted e)
  ∧ (∀ out,
        fst (spawn os (up_cmd profile environment) (cwd h) (tree h))
        = Exited 0 out →
        fst (start_services os profile environment h) = inr tt
        ∧ ran (snd (start_services os profile environment h))
          = (ran h ++ [(cwd h, up_cmd profile environment)])%list).
Proof.
  unfold start_services. rewrite run_command_spec.
  destruct (fst (spawn os (up_cmd profile environment) (cwd h) (tree h)))
    as [rc out|e] eqn:Hup.
  - destruct (rc =? 0)%Z eqn:Hrc.
    + simpl. split; [by exists []|]. split; [done|]. done.
    + set (h1 := {| cwd := cwd h;
                    tree := snd (spawn os (up_cmd profile environment)
                                   (cwd h) (tree h));
                    ran := (ran h ++ [(cwd h, up_cmd profile environment)])%list |}).
      pose proof (except_exception_returns (start_n8n_manually os) h1) as Hret.
      destruct (grows_except_exception (start_n8n_manually os) (sh_ret tt)
                  (grows_start_n8n_manually os) (grows_ret tt) h1) as [l Hl].
      simpl. rewrite Hret. split; [|split; [done|]].
      * exists l. rewrite Hl. unfold h1. simpl. by rewrite <- app_assoc.
      * intros out0 Hout. by simplify_eq.
  - simpl. split; [by exists []|]. split; [|done].
    intros err Herr. simplify_eq. by exists e.
Qed.

(** The loop over the lines of [docker ps]: it runs [docker start n8n]
    for the lines that ask for it, one after the other, until one of the
    starts fails. *)
Lemma start_loop (os : OS) (lines : list string) (h : Host) :
  ∃ k r t',
    for_each lines (start_if_created os) h
    = (r,
       {| cwd := cwd h; tree := t';
          ran := (ran h ++ run_in (cwd h) (replicate k start_n8n_cmd))%list |})
    ∧ (k ≤ length (List.filter n8n_created lines))%nat
    ∧ (n8n_starts os → k = length (List.filter n8n_created lines))
    ∧ (n8n_fails os →
       k = Nat.min 1 (length (List.filter n8n_created lines))).
Proof.
  revert h. induction lines as [|line rest IH]; intros h.
  - exists 0%nat, (inr tt), (tree h). simpl. unfold sh_ret.
    rewrite app_nil_r. by destruct h.
  - cbn [for_each List.filter]. unfold sh_bind at 1, start_if_created at 1.
    destruct (n8n_created line) eqn:Hline.
    + unfold sh_bind at 1, subprocess_run.
      destruct (spawn os start_n8n_cmd (cwd h) (tree h)) as [o t1] eqn:Hspawn.
      destruct o as [rc out|e].
      * destruct (rc =? 0)%Z eqn:Hrc; simpl.
        -- apply Z.eqb_eq in Hrc as ->.
           destruct (IH {| cwd := cwd h; tree := t1;
                           ran := (ran h ++ [(cwd h, start_n8n_cmd)])%list |})
             as (k & r & t' & -> & Hle & Hall & Hnone).
           exists (S k), r, t'. simpl. rewrite <- app_assoc.
           split; [done|]. split; [lia|]. split.
           ++ intros Hs. by rewrite (Hall Hs).
           ++ intros Hf. destruct (Hf (cwd h) (tree h) out).
              by rewrite Hspawn.
        -- apply Z.eqb_neq in Hrc.
           exists 1%nat, (inl (CalledProcessError rc start_n8n_cmd)), t1.
           simpl. split; [done|]. split; [lia|]. split; [|done].
           intros Hs. destruct (Hs (cwd h) (tree h)) as (out' & t'' & Hs').
           rewrite Hspawn in Hs'. by simplify_eq.
      * simpl. exists 1%nat, (inl (OtherError e)), t1.
        split; [done|]. split; [lia|]. split; [|done].
        intros Hs. destruct (Hs (cwd h) (tree h)) as (out' & t'' & Hs').
        rewrite Hspawn in Hs'. by simplify_eq.
    + unfold sh_ret at 1.
      destruct (IH h) as (k & r & t' & -> & Hle & Hall & Hnone).
      by exists k, r, t'.
Qed.

(** X14. When [docker compose up] exits with a status other than zero
    and [docker ps] answers, [start_services] runs [docker start n8n] for
    the lines of the answer that are not empty and contain both [n8n] and
    [Created], whatever container the line names, and then returns
    normally.  The starts follow the two commands in the log and there is
    at most one of them for every such line: one for every such line when
    every [docker start n8n] exits with status zero, and a single one as
    soon as there is such a line when no [docker start n8n] does, because
    the first start that fails ends the loop. *)
Theorem n8n_is_started_until_a_start_fails (os : OS)
  (profile environment : option string) (h : Host)
  (rc : Z) (out0 out : string) (t2 : gmap (list string) node) :
  fst (spawn os (up_cmd profile environment) (cwd h) (tree h))
  = Exited rc out0 →
  rc ≠ 0%Z →
  spawn os check_cmd (cwd h)
    (snd (spawn os (up_cmd profile environment) (cwd h) (tree h)))
  = (Exited 0 out, t2) →
  fst (start_services os profile environment h) = inr tt
  ∧ ∃ k,
      ran (snd (start_services os profile environment h))
      = (ran h
         ++ run_in (cwd h)
              ([up_cmd profile environment; check_cmd]
               ++ replicate k start_n8n_cmd))%list
      ∧ (k ≤ length (created_lines out))%nat
      ∧ (n8n_starts os → k = length (created_lines out))
      ∧ (n8n_fails os → k = Nat.min 1 (length (created_lines out))).
Proof.
  intros Hup Hrc Hcheck.
  destruct (start_loop os (Text.split Text.LF (Str.strip out))
              {| cwd := cwd h; tree := t2;
                 ran := ((ran h ++ [(cwd h, up_cmd profile environment)])
                           ++ [(cwd h, check_cmd)])%list |})
    as (k & r & t' & Hloop & Hle & Hall & Hnone).
  assert (start_services os profile environment h
          = (inr tt,
             {| cwd := cwd h; tree := t';
                ran := (((ran h ++ [(cwd h, up_cmd profile environment)])
                           ++ [(cwd h, check_cmd)])
                          ++ run_in (cwd h) (replicate k start_n8n_cmd))%list |}))
    as ->.
  { unfold start_services. rewrite run_command_spec, Hup.
    rewrite (proj2 (Z.eqb_neq rc 0) Hrc).
    cbv beta iota.
    unfold except_exception, start_n8n_manually, sh_bind.
    unfold subprocess_run. cbn [cwd tree ran]. rewrite Hcheck. simpl.
    simpl in Hloop. rewrite Hloop. by destruct r as [e|[]]. }
  simpl. split; [done|]. exists k. by rewrite <- !app_assoc.
Qed.

Lemma n8n_is_started_until_a_start_fails_witness :
  (fst (start_services os_n8n (Some "cpu") (Some "private") empty_host) = inr tt
   ∧ commands (ran (snd (start_services os_n8n (Some "cpu") (Some "private")
                           empty_host)))
     = [up_cmd (Some "cpu") (Some "private"); check_cmd;
        start_n8n_cmd; start_n8n_cmd])
  ∧ (fst (start_services os_n8n_fails (Some "cpu") (Some "private") empty_host)
     = inr tt
     ∧ commands (ran (snd (start_services os_n8n_fails (Some "cpu")
                             (Some "private") empty_host)))
       = [up_cmd (Some "cpu") (Some "private"); check_cmd; start_n8n_cmd]).
Proof.
  split.
  - destruct (n8n_is_started_until_a_start_fails os_n8n
                (Some "cpu") (Some "private") empty_host 1 EmptyString
                ("n8n-import Created" +:+ String Text.LF "n8n Created"
                 +:+ String Text.LF EmptyString) ∅)
      as (H1 & k & H2 & _ & Hall & _); [reflexivity|done|reflexivity|].
    split; [exact H1|]. rewrite H2, Hall.
    + vm_compute. reflexivity.
    + intros dir t. by exists EmptyString, t.
  - destruct (n8n_is_started_until_a_start_fails os_n8n_fails
                (Some "cpu") (Some "private") empty_host 1 EmptyString
                ("n8n-import Created" +:+ String Text.LF "n8n Created"
                 +:+ String Text.LF EmptyString) ∅)
      as (H1 & k & H2 & _ & _ & Hnone); [reflexivity|done|reflexivity|].
    split; [exact H1|]. rewrite H2, Hnone.
    + vm_compute. reflexivity.
    + intros dir t out. simpl. discriminate.
Defined.

(** ** [clone_supabase_repo] *)

Ltac step_command H :=
  match type of H with
  | context [run_command ?os ?cmd ?h] =>
      rewrite (run_command_spec os cmd h) in H;
      let rc := fresh "rc" in
      let out := fresh "out" in
      let e := fresh "e" in
      destruct (fst (spawn os cmd (cwd h) (tree h))) as [rc out|e];
      [destruct (rc =? 0)%Z|];
      cbn [fst snd cwd tree ran String.eqb Ascii.eqb Bool.eqb] in H
  end.

(** X15. [clone_supabase_repo] pulls inside an existing [supabase]
    directory and clones otherwise, the three checkout commands being run
    inside the new directory.  When it returns it is back in the
    directory it was called in; when a git command run inside [supabase]
    fails, the exception leaves the function while the working directory
    is still [supabase]. *)
Theorem clone_restores_the_directory (os : OS) (h : Host) :
  (fst (clone_supabase_repo os h) = inr tt →
   cwd (snd (clone_supabase_repo os h)) = cwd h
   ∧ ran (snd (clone_supabase_repo os h))
     = (ran h
        ++ match tree h !! (cwd h ++ ["supabase"])%list with
           | Some _ => run_in (cwd h ++ ["supabase"]) [git_pull_cmd]
           | None =>
               (cwd h, git_clone_cmd)
               :: run_in (cwd h ++ ["supabase"]) sparse_checkout_cmds
           end)%list)
  ∧ (∀ rc cmd,
        fst (clone_supabase_repo os h) = inl (CalledProcessError rc cmd) →
        cmd ≠ git_clone_cmd →
        cwd (snd (clone_supabase_repo os h)) = (cwd h ++ ["supabase"])%list).
Proof.
  remember (clone_supabase_repo os h) as r eqn:Hr.
  unfold clone_supabase_repo, sh_bind, os_exists, os_chdir in Hr.
  cbn [String.eqb Ascii.eqb Bool.eqb] in Hr.
  destruct (tree h !! (cwd h ++ ["supabase"])%list) as [n|] eqn:Hsup.
  - rewrite bool_decide_eq_true_2 in Hr by (by eexists). cbn [negb] in Hr.
    rewrite Hsup in Hr. destruct n as [|content].
    + step_command Hr; subst r; cbn [fst snd cwd ran].
      * split; [|done]. intros _. by rewrite removelast_last.
      * split; [done|]. by intros ? ? [= <- <-] _.
      * done.
    + by subst r.
  - rewrite bool_decide_eq_false_2 in Hr by (intros [? ?]; done).
    cbn [negb] in Hr. step_command Hr.
    + destruct (snd (spawn os git_clone_cmd (cwd h) (tree h))
                  !! (cwd h ++ ["supabase"])%list) as [[|content]|];
        [|by subst r|by subst r].
      repeat step_command Hr; subst r; cbn [fst snd cwd ran];
        (split; [try done|try done]).
      intros _. rewrite removelast_last. split; [done|].
      unfold run_in, sparse_checkout_cmds. simpl.
      by rewrite <- !app_assoc.
    + subst r. split; [done|]. intros ? ? [= <- <-] Hne. done.
    + by subst r.
Qed.

(** ** Files *)

Lemma read_text_file (p : list string) (content : string) (h : Host) :
  tree h !! (cwd h ++ p)%list = Some (File content) →
  read_text p h = (inr content, h).
Proof. intros H. unfold read_text. by rewrite H. Qed.

Lemma parent_is_dir_child (t : gmap (list string) node)
  (d : list string) (name : string) :
  d ≠ [] → t !! d = Some Dir → parent_is_dir t (d ++ [name])%list = true.
Proof.
  intros Hd Ht. unfold parent_is_dir. rewrite removelast_last.
  destruct d; [done|]. by rewrite Ht.
Qed.

Lemma write_text_file (p : list string) (name content : string) (h : Host) :
  tree h !! (cwd h ++ p)%list = Some Dir →
  p ≠ [] →
  tree h !! (cwd h ++ p ++ [name])%list ≠ Some Dir →
  write_text (p ++ [name]) content h
  = (inr tt,
     {| cwd := cwd h;
        tree := <[(cwd h ++ p ++ [name])%list := File content]> (tree h);
        ran := ran h |}).
Proof.
  intros Hdir Hp Hnot. unfold write_text.
  assert (parent_is_dir (tree h) (cwd h ++ p ++ [name])%list = true) as Hpar.
  { rewrite app_assoc. apply parent_is_dir_child; [|done].
    destruct (cwd h), p; done. }
  rewrite Hpar.
  by destruct (tree h !! (cwd h ++ p ++ [name])%list) as [[|c]|].
Qed.

(** X16. [prepare_supabase_env]: when [.env] is a file and
    [supabase/docker] is a directory, the content of [.env] is written to
    [supabase/docker/.env] and nothing else changes; when [.env] does not
    exist, the function raises [FileNotFoundError] and changes nothing. *)
Theorem prepare_copies_the_env_file (h : Host) (content : string) :
  tree h !! (cwd h ++ [".env"])%list = Some (File content) →
  tree h !! (cwd h ++ ["supabase"; "docker"])%list = Some Dir →
  tree h !! (cwd h ++ ["supabase"; "docker"; ".env"])%list ≠ Some Dir →
  prepare_supabase_env h
  = (inr tt,
     {| cwd := cwd h;
        tree := <[(cwd h ++ ["supabase"; "docker"; ".env"])%list
                  := File content]> (tree h);
        ran := ran h |})
  ∧ (∀ h', tree h' !! (cwd h' ++ [".env"])%list = None →
           prepare_supabase_env h'
           = (inl (OtherError (FileNotFoundError ".env")), h')).
Proof.
  intros Henv Hdir Hnot. split.
  - unfold prepare_supabase_env, copyfile, sh_bind.
    rewrite (read_text_file _ _ _ Henv).
    by apply (write_text_file ["supabase"; "docker"] ".env").
  - intros h' Hnone. unfold prepare_supabase_env, copyfile, sh_bind, read_text.
    by rewrite Hnone.
Qed.

(** ** [generate_searxng_secret_key] *)

Lemma returns_ret {A} (a : A) : returns (sh_ret a).
Proof. intros h. by exists a. Qed.

Lemma returns_bind {A B} (m : Sh A) (k : A → Sh B) :
  returns m → (∀ a, returns (k a)) → returns (sh_bind m k).
Proof.
  intros Hm Hk h. unfold sh_bind. destruct (Hm h) as [a Ha].
  destruct (m h) as [[e|a'] h1]; simpl in *; [done|]. apply Hk.
Qed.

Lemma returns_except_exception {A} (m handler : Sh A) :
  returns handler → returns (except_exception m handler).
Proof.
  intros Hh h. unfold except_exception.
  destruct (m h) as [[e|a] h1]; [apply Hh|by exists a].
Qed.

Lemma returns_os_exists (p : list string) : returns (os_exists p).
Proof. intros h. by eexists. Qed.

Lemma generate_returns (os : OS) : returns (generate_searxng_secret_key os).
Proof.
  unfold generate_searxng_secret_key.
  apply returns_bind; [apply returns_os_exists|]. intros base.
  destruct base; cbn [negb]; [|apply returns_ret].
  apply returns_bind; [apply returns_os_exists|]. intros present.
  apply returns_bind.
  { destruct present; cbn [negb]; [apply returns_ret|].
    apply returns_except_exception, returns_ret. }
  intros created. destruct created; cbn [negb]; [|apply returns_ret].
  apply returns_bind; [apply returns_except_exception, returns_ret|].
  intros configured. destruct configured; [apply returns_ret|].
  apply returns_except_exception, returns_ret.
Qed.

(** X17. [generate_searxng_secret_key] never raises.  When the base
    settings do not exist, or when [settings.yml] is a file that does not
    contain the placeholder [ultrasecretkey], it runs no command and
    writes no file: a key that is already set is never replaced. *)
Theorem configured_key_is_kept (os : OS) (h : Host) :
  fst (generate_searxng_secret_key os h) = inr tt
  ∧ (tree h !! (cwd h ++ settings_base_path)%list = None →
     generate_searxng_secret_key os h = (inr tt, h))
  ∧ (∀ content,
        is_Some (tree h !! (cwd h ++ settings_base_path)%list) →
        tree h !! (cwd h ++ settings_path)%list = Some (File content) →
        Text.contains "ultrasecretkey" content = false →
        generate_searxng_secret_key os h = (inr tt, h)).
Proof.
  split; [|split].
  - destruct (generate_returns os h) as [[] H]. exact H.
  - intros Hbase. unfold generate_searxng_secret_key, sh_bind, os_exists.
    by rewrite bool_decide_eq_false_2 by (rewrite Hbase; by intros [? ?]).
  - intros content Hbase Hset Hno.
    unfold generate_searxng_secret_key, sh_bind, os_exists, sh_ret.
    rewrite bool_decide_eq_true_2 by done. cbn [negb].
    rewrite bool_decide_eq_true_2 by (by rewrite Hset). cbn [negb].
    unfold except_exception, sh_bind.
    rewrite (read_text_file _ _ _ Hset). cbn. by rewrite Hno.
Qed.

Lemma prepare_copies_the_env_file_witness :
  fst (prepare_supabase_env env_host) = inr tt
  ∧ tree (snd (prepare_supabase_env env_host)) !! ["supabase"; "docker"; ".env"]
    = Some (File "POSTGRES_PASSWORD=secret").
Proof.
  destruct (prepare_copies_the_env_file env_host "POSTGRES_PASSWORD=secret")
    as [H _]; [reflexivity|reflexivity|by vm_compute|].
  rewrite H. split; [reflexivity|]. apply lookup_insert_eq.
Defined.

(** X18. On a platform other than Windows, when the settings hold the
    placeholder, the key is made by [openssl rand -hex 32] and put in
    place by [sed -i] with the script [s|ultrasecretkey|KEY|g], where KEY
    is the stripped output of [openssl]; on Darwin [sed] receives an
    empty argument after [-i].  When [openssl] exits with a status other
    than zero, [sed] is not run. *)
Theorem key_is_made_by_openssl_and_sed (os : OS) (h : Host)
  (content : string) (rc : Z) (out : string) (t1 : gmap (list string) node) :
  platform_system os ≠ "Windows" →
  is_Some (tree h !! (cwd h ++ settings_base_path)%list) →
  tree h !! (cwd h ++ settings_path)%list = Some (File content) →
  Text.contains "ultrasecretkey" content = true →
  spawn os openssl_cmd (cwd h) (tree h) = (Exited rc out, t1) →
  ran (snd (generate_searxng_secret_key os h))
  = (ran h
     ++ run_in (cwd h)
          (openssl_cmd
           :: if (rc =? 0)%Z then
                [("sed" :: "-i"
                  :: (if String.eqb (platform_system os) "Darwin"
                      then [EmptyString] else [])
                  ++ [sed_script (Str.strip out); "searxng/settings.yml"])%list]
              else []))%list.
Proof.
  intros Hsys Hbase Hset Hplace Hssl.
  assert (generate_searxng_secret_key os h
          = except_exception (generate_key os) (sh_ret tt) h) as ->.
  { unfold generate_searxng_secret_key, sh_bind at 1, os_exists at 1.
    rewrite bool_decide_eq_true_2 by done. cbn [negb].
    unfold sh_bind at 1, os_exists at 1.
    rewrite bool_decide_eq_true_2 by (by rewrite Hset). cbn [negb].
    unfold sh_bind at 1, sh_ret at 1. cbn [negb].
    unfold sh_bind at 1, except_exception at 1, sh_bind at 1.
    rewrite (read_text_file _ _ _ Hset). unfold sh_ret at 1.
    by rewrite Hplace. }
  unfold except_exception, generate_key.
  rewrite (proj2 (String.eqb_neq _ _) Hsys).
  destruct (String.eqb (platform_system os) "Darwin");
    unfold sh_bind at 1, check_output_stripped, sh_bind at 1, subprocess_run at 1;
    rewrite Hssl; cbn [andb];
    (destruct (rc =? 0)%Z; cbn [negb fst snd sh_ret]; [|done]);
    unfold sh_bind, subprocess_run; cbn [cwd tree ran];
    (destruct (spawn os _ (cwd h) t1) as [[rc2 out2|e2] t2];
     [destruct (rc2 =? 0)%Z|]);
    cbn; by rewrite <- app_assoc.
Qed.

Lemma key_is_made_by_openssl_and_sed_witness :
  commands (ran (snd (generate_searxng_secret_key (os_openssl "Darwin")
                        searxng_host)))
  = [openssl_cmd;
     ["sed"; "-i"; EmptyString; "s|ultrasecretkey|0f3a|g";
      "searxng/settings.yml"]].
Proof.
  rewrite (key_is_made_by_openssl_and_sed (os_openssl "Darwin") searxng_host
             "secret_key: ultrasecretkey" 0
             ("0f3a" +:+ String Text.LF EmptyString) (tree searxng_host));
    [reflexivity|by vm_compute|vm_compute; by eexists|reflexivity
    |reflexivity|reflexivity].
Defined.



(** ** [check_and_fix_docker_compose_for_searxng] *)

Lemma replace_back_cap_drop (content : string) :
  Text.contains cap_drop_commented content = false →
  Text.replace cap_drop_commented cap_drop
    (Text.replace cap_drop cap_drop_commented content)
  = content.
Proof.
  apply TextFacts.replace_back; [done|done|].
  apply TextFacts.no_border_spec. by vm_compute.
Qed.

(** X20. Commenting the directive out and putting it back are inverse:
    for a compose file that does not contain the commented line, the
    second replacement applied to the result of the first gives the file
    back. *)
Theorem cap_drop_is_put_back (content : string) :
  Text.contains cap_drop_commented content = false →
  Text.replace cap_drop_commented cap_drop
    (Text.replace cap_drop cap_drop_commented content)
  = content.
Proof. apply replace_back_cap_drop. Qed.

Lemma cap_drop_is_put_back_witness :
  Text.replace cap_drop cap_drop_commented compose_text
  = "services: searxng: # cap_drop: - ALL  # Temporarily commented out for first run cap_add: - CHOWN"
  ∧ Text.replace cap_drop_commented cap_drop
      (Text.replace cap_drop cap_drop_commented compose_text)
    = compose_text.
Proof.
  split; [reflexivity|].
  exact (cap_drop_is_put_back compose_text eq_refl).
Defined.

Section CheckFacts.

Variable os : OS.

Lemma probe_or_first_run_returns (h : Host) :
  ∃ is_first_run,
    fst (except_exception (probe_first_run os) (sh_ret true) h)
    = inr is_first_run.
Proof. apply returns_except_exception, returns_ret. Qed.

(** With a readable compose file the function is the probe followed by
    the guarded rewrite. *)
Lemma check_and_fix_spec (h : Host) (content : string) :
  tree h !! (cwd h ++ docker_compose_path)%list = Some (File content) →
  ∃ is_first_run,
    fst (except_exception (probe_first_run os) (sh_ret true) h)
    = inr is_first_run
    ∧ check_and_fix_docker_compose_for_searxng os h
      = except_exception (toggle_cap_drop content is_first_run) (sh_ret tt)
          (snd (except_exception (probe_first_run os) (sh_ret true) h)).
Proof.
  intros Hfile. destruct (probe_or_first_run_returns h) as [b Hb].
  exists b. split; [done|].
  unfold check_and_fix_docker_compose_for_searxng, sh_bind at 1, os_exists.
  rewrite bool_decide_eq_true_2 by (by rewrite Hfile). cbn [negb].
  unfold except_exception at 1, sh_bind at 1.
  rewrite (read_text_file _ _ _ Hfile). unfold sh_bind.
  destruct (except_exception (probe_first_run os) (sh_ret true) h)
    as [[e|b'] h1]; simpl in Hb; simplify_eq.
  unfold except_exception. simpl.
  by destruct (toggle_cap_drop content b h1) as [[e|[]] h2].
Qed.

(** The probe when a container is listed. *)
Lemma probe_running (h : Host) (outps name : string) (rest : list string)
  (t1 t2 : gmap (list string) node) (rc2 : Z) (out2 : string) :
  spawn os searxng_ps_cmd (cwd h) (tree h) = (Exited 0 outps, t1) →
  List.filter (fun c => negb (Str.is_empty c))
    (Text.split Text.LF (Str.strip outps)) = name :: rest →
  spawn os (uwsgi_probe_cmd name) (cwd h) t1 = (Exited rc2 out2, t2) →
  probe_first_run os h
  = (inr (negb (Text.contains "found" out2)),
     {| cwd := cwd h; tree := t2;
        ran := (ran h
                ++ run_in (cwd h) [searxng_ps_cmd; uwsgi_probe_cmd name])%list |}).
Proof.
  intros Hps Hname Hprobe.
  unfold probe_first_run, sh_bind at 1, subprocess_run at 1.
  rewrite Hps. cbn [andb negb Z.eqb]. rewrite Hname.
  unfold sh_bind, subprocess_run. cbn [cwd tree ran]. rewrite Hprobe.
  cbn [andb]. destruct (Text.contains "found" out2); simpl;
    by rewrite <- app_assoc.
Qed.

(** The probe when no container is listed. *)
Lemma probe_nothing_listed (h : Host) (outps : string)
  (t1 : gmap (list string) node) :
  spawn os searxng_ps_cmd (cwd h) (tree h) = (Exited 0 outps, t1) →
  List.filter (fun c => negb (Str.is_empty c))
    (Text.split Text.LF (Str.strip outps)) = [] →
  probe_first_run os h
  = (inr true,
     {| cwd := cwd h; tree := t1;
        ran := (ran h ++ run_in (cwd h) [searxng_ps_cmd])%list |}).
Proof.
  intros Hps Hnone.
  unfold probe_first_run, sh_bind at 1, subprocess_run at 1.
  rewrite Hps. cbn [andb negb Z.eqb]. by rewrite Hnone.
Qed.

Lemma write_compose (h : Host) (content : string) :
  cwd h = [] →
  tree h !! docker_compose_path ≠ Some Dir →
  write_text docker_compose_path content h
  = (inr tt,
     {| cwd := []; tree := <[docker_compose_path := File content]> (tree h);
        ran := ran h |}).
Proof.
  intros Hcwd Hnot. unfold write_text. rewrite Hcwd. simpl.
  by destruct (tree h !! docker_compose_path) as [[|c]|].
Qed.

End CheckFacts.

(** X21. While a SearXNG container is running, the two answers of the
    probe, [found] and [not_found], are treated alike: both contain the
    word [found], so the run is never taken for a first run and a compose
    file that has no commented directive is not written. *)
Theorem running_container_is_never_a_first_run (os : OS) (h : Host)
  (content outps name : string) (rest : list string)
  (t1 t2 : gmap (list string) node) (rc2 : Z) (out2 : string) :
  tree h !! (cwd h ++ docker_compose_path)%list = Some (File content) →
  Text.contains cap_drop_commented content = false →
  spawn os searxng_ps_cmd (cwd h) (tree h) = (Exited 0 outps, t1) →
  List.filter (fun c => negb (Str.is_empty c))
    (Text.split Text.LF (Str.strip outps)) = name :: rest →
  spawn os (uwsgi_probe_cmd name) (cwd h) t1 = (Exited rc2 out2, t2) →
  out2 = "found" +:+ String Text.LF EmptyString
  ∨ out2 = "not_found" +:+ String Text.LF EmptyString →
  check_and_fix_docker_compose_for_searxng os h
  = (inr tt,
     {| cwd := cwd h; tree := t2;
        ran := (ran h
                ++ run_in (cwd h) [searxng_ps_cmd; uwsgi_probe_cmd name])%list |}).
Proof.
  intros Hfile Hno Hps Hname Hprobe Hout.
  destruct (check_and_fix_spec os h content Hfile) as (b & Hb & ->).
  assert (Text.contains "found" out2 = true) as Hfound
    by (destruct Hout as [->| ->]; reflexivity).
  assert (except_exception (probe_first_run os) (sh_ret true) h
          = (inr false,
             {| cwd := cwd h; tree := t2;
                ran := (ran h
                        ++ run_in (cwd h)
                             [searxng_ps_cmd; uwsgi_probe_cmd name])%list |}))
    as Hp.
  { unfold except_exception.
    rewrite (probe_running os h outps name rest t1 t2 rc2 out2 Hps Hname
               Hprobe).
    by rewrite Hfound. }
  rewrite Hp in Hb |- *. simpl in Hb. simplify_eq.
  unfold except_exception, toggle_cap_drop. cbn [negb andb snd].
  by rewrite Hno.
Qed.

Lemma running_container_is_never_a_first_run_witness :
  check_and_fix_docker_compose_for_searxng (os_running "not_found") compose_host
  = (inr tt,
     {| cwd := []; tree := tree compose_host;
        ran := run_in [] [searxng_ps_cmd; uwsgi_probe_cmd "searxng"] |}).
Proof.
  exact (running_container_is_never_a_first_run (os_running "not_found")
           compose_host compose_text
           ("searxng" +:+ String Text.LF EmptyString) "searxng" []
           (tree compose_host) (tree compose_host) 0
           ("not_found" +:+ String Text.LF EmptyString)
           eq_refl eq_refl eq_refl eq_refl eq_refl (or_intror eq_refl)).
Defined.

(** X22. When [docker ps] cannot be run or exits with a status other
    than zero, the run counts as a first run: a compose file that contains
    the directive is rewritten with every occurrence commented out, and
    the function returns normally. *)
Theorem first_run_is_assumed_without_docker (os : OS) (h : Host)
  (content : string) :
  cwd h = [] →
  tree h !! docker_compose_path = Some (File content) →
  Text.contains cap_drop content = true →
  (∀ out, fst (spawn os searxng_ps_cmd [] (tree h)) ≠ Exited 0 out) →
  snd (spawn os searxng_ps_cmd [] (tree h)) = tree h →
  check_and_fix_docker_compose_for_searxng os h
  = (inr tt,
     {| cwd := [];
        tree := <[docker_compose_path
                  := File (Text.replace cap_drop cap_drop_commented content)]>
                  (tree h);
        ran := (ran h ++ [([], searxng_ps_cmd)])%list |}).
Proof.
  intros Hcwd Hfile Hhas Hps Htree.
  destruct (check_and_fix_spec os h content) as (b & Hb & ->);
    [by rewrite Hcwd|].
  assert (except_exception (probe_first_run os) (sh_ret true) h
          = (inr true,
             {| cwd := []; tree := tree h;
                ran := (ran h ++ [([], searxng_ps_cmd)])%list |})) as Hp.
  { unfold except_exception, probe_first_run, sh_bind at 1, subprocess_run at 1.
    rewrite Hcwd.
    destruct (spawn os searxng_ps_cmd [] (tree h)) as [[rc out|e] t1] eqn:E;
      simpl in Htree; subst t1.
    - destruct (rc =? 0)%Z eqn:Hrc; [|done].
      apply Z.eqb_eq in Hrc as ->. by destruct (Hps out).
    - done. }
  rewrite Hp in Hb |- *. simpl in Hb. simplify_eq.
  unfold except_exception, toggle_cap_drop. cbn [snd].
  rewrite Hhas. cbn [andb].
  rewrite write_compose; [done|done|]. simpl. by rewrite Hfile.
Qed.

Lemma first_run_is_assumed_without_docker_witness :
  tree (snd (check_and_fix_docker_compose_for_searxng (os_exit 1 "Linux")
               compose_host)) !! docker_compose_path
  = Some (File "services: searxng: # cap_drop: - ALL  # Temporarily commented out for first run cap_add: - CHOWN").
Proof.
  rewrite (first_run_is_assumed_without_docker (os_exit 1 "Linux")
             compose_host compose_text);
    [|reflexivity|reflexivity|reflexivity|by intros out|reflexivity].
  apply lookup_insert_eq.
Defined.

(** X23. A first run followed by a later run gives the compose file
    back.  The first run, in which no container is listed, comments the
    directive out; the later run, in which a container is running and the
    probe finds [uwsgi.ini], puts it back, provided the file had no
    commented directive to begin with and the programs leave the tree
    alone. *)
Theorem first_run_is_undone_later (os : OS) (h : Host)
  (content outps0 outps name : string) (rest : list string)
  (rc2 : Z) (out2 : string) :
  cwd h = [] →
  tree h !! docker_compose_path = Some (File content) →
  Text.contains cap_drop content = true →
  Text.contains cap_drop_commented content = false →
  spawn os searxng_ps_cmd [] (tree h) = (Exited 0 outps0, tree h) →
  List.filter (fun c => negb (Str.is_empty c))
    (Text.split Text.LF (Str.strip outps0)) = [] →
  let commented :=
    <[docker_compose_path
      := File (Text.replace cap_drop cap_drop_commented content)]> (tree h) in
  spawn os searxng_ps_cmd [] commented = (Exited 0 outps, commented) →
  List.filter (fun c => negb (Str.is_empty c))
    (Text.split Text.LF (Str.strip outps)) = name :: rest →
  spawn os (uwsgi_probe_cmd name) [] commented = (Exited rc2 out2, commented) →
  Text.contains "found" out2 = true →
  tree (snd (check_and_fix_docker_compose_for_searxng os h)) = commented
  ∧ tree (snd (check_and_fix_docker_compose_for_searxng os
                 (snd (check_and_fix_docker_compose_for_searxng os h))))
    = tree h.
Proof.
  intros Hcwd Hfile Hhas Hno Hps0 Hnone commented Hps Hname Hprobe Hfound.
  assert (check_and_fix_docker_compose_for_searxng os h
          = (inr tt,
             {| cwd := []; tree := commented;
                ran := (ran h ++ run_in [] [searxng_ps_cmd])%list |})) as H1.
  { destruct (check_and_fix_spec os h content) as (b & Hb & ->);
      [by rewrite Hcwd|].
    assert (except_exception (probe_first_run os) (sh_ret true) h
            = (inr true,
               {| cwd := []; tree := tree h;
                  ran := (ran h ++ run_in [] [searxng_ps_cmd])%list |}))
      as Hp.
    { unfold except_exception.
      rewrite (probe_nothing_listed os h outps0 (tree h));
        [|by rewrite Hcwd|done].
      by rewrite Hcwd. }
    rewrite Hp in Hb |- *. simpl in Hb. simplify_eq.
    unfold except_exception, toggle_cap_drop. cbn [snd].
    rewrite Hhas. cbn [andb].
    rewrite write_compose; [done|done|]. simpl.
    by rewrite Hfile. }
  rewrite H1. cbn [snd tree]. split; [done|].
  set (h1 := {| cwd := []; tree := commented;
                ran := (ran h ++ run_in [] [searxng_ps_cmd])%list |}).
  destruct (check_and_fix_spec os h1
              (Text.replace cap_drop cap_drop_commented content))
    as (b & Hb & ->); [apply lookup_insert_eq|].
  assert (except_exception (probe_first_run os) (sh_ret true) h1
          = (inr false,
             {| cwd := []; tree := commented;
                ran := (ran h1
                        ++ run_in [] [searxng_ps_cmd; uwsgi_probe_cmd name])%list |}))
    as Hp.
  { unfold except_exception.
    rewrite (probe_running os h1 outps name rest commented commented rc2 out2);
      [|done|done|done].
    by rewrite Hfound. }
  rewrite Hp in Hb |- *. simpl in Hb. simplify_eq.
  unfold except_exception, toggle_cap_drop.
  cbn [snd andb negb].
  rewrite (TextFacts.replace_present cap_drop cap_drop_commented) by done.
  cbn [andb]. rewrite replace_back_cap_drop by done.
  rewrite write_compose; [|done|].
  - simpl. unfold commented. rewrite insert_insert_eq. by apply insert_id.
  - simpl. unfold commented. by rewrite lookup_insert_eq.
Qed.

Lemma first_run_is_undone_later_witness :
  tree (snd (check_and_fix_docker_compose_for_searxng os_first_then_later
               (snd (check_and_fix_docker_compose_for_searxng
                       os_first_then_later compose_host))))
  = tree compose_host.
Proof.
  refine (proj2
    (first_run_is_undone_later os_first_then_later compose_host compose_text
       EmptyString ("searxng" +:+ String Text.LF EmptyString) "searxng" []
       0 ("found" +:+ String Text.LF EmptyString)
       _ _ _ _ _ _ _ _ _ _)); by vm_compute.
Defined.

(** ** [main] *)

Section MainFacts.

Variable os : OS.

Lemma grows_clone : grows (clone_supabase_repo os).
Proof.
  unfold clone_supabase_repo.
  apply grows_bind; [apply grows_os_exists|]. intros present.
  destruct present; cbn [negb];
    repeat first [ apply grows_os_chdir
                 | apply grows_run_command
                 | apply grows_bind; [|intros ?] ].
Qed.

Lemma grows_prepare : grows prepare_supabase_env.
Proof.
  unfold prepare_supabase_env, copyfile.
  apply grows_bind; [apply grows_read_text|]. intros. apply grows_write_text.
Qed.

Lemma grows_generate_key : grows (generate_key os).
Proof.
  unfold generate_key, check_output_stripped.
  repeat first [ apply grows_ret
               | apply grows_subprocess_run
               | apply grows_bind; [|intros ?]
               | match goal with |- grows (if ?b then _ else _) => destruct b end
               | match goal with |- grows (let (_, _) := ?p in _) => destruct p end ].
Qed.

Lemma grows_generate : grows (generate_searxng_secret_key os).
Proof.
  unfold generate_searxng_secret_key, copyfile.
  repeat first [ apply grows_ret
               | apply grows_os_exists
               | apply grows_read_text
               | apply grows_write_text
               | apply grows_generate_key
               | apply grows_except_exception
               | apply grows_bind; [|intros ?]
               | match goal with |- grows (if ?b then _ else _) => destruct b end ].
Qed.

Lemma grows_probe : grows (probe_first_run os).
Proof.
  unfold probe_first_run.
  apply grows_bind; [apply grows_subprocess_run|]. intros [rc out].
  destruct (List.filter _ _) as [|name rest]; [apply grows_ret|].
  apply grows_bind; [apply grows_subprocess_run|]. intros [rc2 out2].
  destruct (Text.contains "found" out2); apply grows_ret.
Qed.

Lemma grows_check : grows (check_and_fix_docker_compose_for_searxng os).
Proof.
  unfold check_and_fix_docker_compose_for_searxng, toggle_cap_drop.
  repeat first [ apply grows_ret
               | apply grows_os_exists
               | apply grows_read_text
               | apply grows_write_text
               | apply grows_probe
               | apply grows_except_exception
               | apply grows_bind; [|intros ?]
               | match goal with |- grows (if ?b then _ else _) => destruct b end ].
Qed.

Lemma check_returns : returns (check_and_fix_docker_compose_for_searxng os).
Proof.
  unfold check_and_fix_docker_compose_for_searxng.
  apply returns_bind; [apply returns_os_exists|]. intros present.
  destruct present; cbn [negb]; [|apply returns_ret].
  apply returns_except_exception, returns_ret.
Qed.

(** The log of [start_services] begins with the [up] command. *)
Lemma start_services_log (profile environment : option string) (h : Host) :
  ∃ rest,
    ran (snd (start_services os profile environment h))
    = (ran h ++ (cwd h, up_cmd profile environment) :: rest)%list.
Proof.
  unfold start_services. rewrite run_command_spec.
  destruct (fst (spawn os (up_cmd profile environment) (cwd h) (tree h)))
    as [rc out|e].
  - destruct (rc =? 0)%Z; [by exists []|].
    destruct (grows_except_exception (start_n8n_manually os) (sh_ret tt)
                (grows_start_n8n_manually os) (grows_ret tt)
                {| cwd := cwd h;
                   tree := snd (spawn os (up_cmd profile environment)
                                  (cwd h) (tree h));
                   ran := (ran h ++ [(cwd h, up_cmd profile environment)])%list |})
      as [l Hl].
    exists l. simpl in *. rewrite Hl. by rewrite <- app_assoc.
  - by exists [].
Qed.

End MainFacts.

(** X24. When [main] returns, the log of commands contains the four
    [down] commands of the environment, in order, directly followed by
    the [up] command of the profile and the environment, all run in one
    directory: the containers are stopped before they are started, with
    the same compose files. *)
Theorem main_stops_before_it_starts (os : OS)
  (profile environment : string) (h : Host) :
  fst (main os profile environment h) = inr tt →
  ∃ before after dir,
    ran (snd (main os profile environment h))
    = (ran h ++ before
       ++ run_in dir (stop_commands (Some environment))
       ++ (dir, up_cmd (Some profile) (Some environment)) :: after)%list.
Proof.
  intros Hmain. unfold main, sh_bind in Hmain |- *.
  destruct (grows_clone os h) as [l1 Hl1].
  destruct (clone_supabase_repo os h) as [[e|[]] h1]; [done|].
  destruct (grows_prepare h1) as [l2 Hl2].
  destruct (prepare_supabase_env h1) as [[e|[]] h2]; [done|].
  destruct (grows_generate os h2) as [l3 Hl3].
  destruct (generate_searxng_secret_key os h2) as [[e|[]] h3]; [done|].
  destruct (grows_check os h3) as [l4 Hl4].
  destruct (check_and_fix_docker_compose_for_searxng os h3) as [[e|[]] h4];
    [done|].
  rewrite stop_is_a_guarded_sequence in Hmain |- *.
  destruct (guarded_sequence os (stop_commands (Some environment)) h4)
    as (Hcwd & Hok & _).
  destruct (for_each (stop_commands (Some environment))
              (fun c => except_called (run_command os c)) h4)
    as [[e|[]] h5]; [done|].
  simpl in *. specialize (Hok eq_refl).
  destruct (start_services_log os (Some profile) (Some environment) h5)
    as [rest Hrest].
  exists (l1 ++ l2 ++ l3 ++ l4)%list, rest, (cwd h4).
  rewrite Hrest, Hok, Hcwd, Hl4, Hl3, Hl2, Hl1.
  by rewrite <- !app_assoc.
Qed.

Lemma main_stops_before_it_starts_witness :
  fst (main (os_exit 0 "Linux") "cpu" "private" env_host) = inr tt
  ∧ ∃ before after dir,
      ran (snd (main (os_exit 0 "Linux") "cpu" "private" env_host))
      = (ran env_host ++ before
         ++ run_in dir (stop_commands (Some "private"))
         ++ (dir, up_cmd (Some "cpu") (Some "private")) :: after)%list.
Proof.
  assert (fst (main (os_exit 0 "Linux") "cpu" "private" env_host) = inr tt)
    as H by (vm_compute; reflexivity).
  split; [exact H|].
  exact (main_stops_before_it_starts (os_exit 0 "Linux") "cpu" "private"
           env_host H).
Defined.

(** X25. [check_and_fix_docker_compose_for_searxng] never raises,
    whatever [docker] does and whether or not the file can be read or
    written; without a compose file it runs no command and changes
    nothing. *)
Theorem check_and_fix_never_raises (os : OS) (h : Host) :
  fst (check_and_fix_docker_compose_for_searxng os h) = inr tt
  ∧ (tree h !! (cwd h ++ docker_compose_path)%list = None →
     check_and_fix_docker_compose_for_searxng os h = (inr tt, h)).
Proof.
  split.
  - destruct (check_returns os h) as [[] H]. exact H.
  - intros Hnone.
    unfold check_and_fix_docker_compose_for_searxng, sh_bind, os_exists.
    by rewrite bool_decide_eq_false_2 by (rewrite Hnone; by intros [? ?]).
Qed.

(** X26. The commented line still contains the directive.  A compose
    file with the directive therefore still has it after a first run, and
    a second first run does not leave the file as the first one did: it
    comments the commented line once more. *)
Theorem first_run_is_not_idempotent (content : string) :
  Text.contains cap_drop content = true →
  Text.contains cap_drop
    (Text.replace cap_drop cap_drop_commented content) = true
  ∧ Text.replace cap_drop cap_drop_commented
      (Text.replace cap_drop cap_drop_commented content)
    ≠ Text.replace cap_drop cap_drop_commented content.
Proof.
  intros Hhas.
  assert (Text.contains cap_drop
            (Text.replace cap_drop cap_drop_commented content) = true) as H.
  { apply (TextFacts.contains_trans _ cap_drop_commented); [reflexivity|].
    by apply TextFacts.replace_present. }
  split; [exact H|]. intros Heq.
  pose proof (TextFacts.replace_length_gt cap_drop cap_drop_commented
                (Text.replace cap_drop cap_drop_commented content)) as Hgt.
  rewrite Heq in Hgt. specialize (Hgt ltac:(done)). simpl in Hgt.
  specialize (Hgt ltac:(lia) H). lia.
Qed.

Lemma first_run_is_not_idempotent_witness :
  Text.replace cap_drop cap_drop_commented
    (Text.replace cap_drop cap_drop_commented compose_text)
  = "services: searxng: # # cap_drop: - ALL  # Temporarily commented out for first run  # Temporarily commented out for first run cap_add: - CHOWN"
  ∧ Text.replace cap_drop cap_drop_commented
      (Text.replace cap_drop cap_drop_commented compose_text)
    ≠ Text.replace cap_drop cap_drop_commented compose_text.
Proof.
  split; [reflexivity|].
  exact (proj2 (first_run_is_not_idempotent compose_text eq_refl)).
Defined.

End OrchestrationFacts.
